(** * A shallow embedding of the Vuex resource module of reststate-vuex

    The development models [src/reststate-vuex.js] (the [resourceModule]
    factory, lines 1-507): the per-type module state, its mutations, its
    getters and its actions, together with the root store that holds one
    module per resource name and routes the cross-type [dispatch] calls of
    [storeIncluded] and [update].

    JavaScript values are modelled by [Val].  Plain objects are association
    lists with unique keys, in insertion order, as [Object.keys] lists them.
    Promises are modelled by the outcome of the transport call they wait on
    (the external [ResourceClient] of [@reststate/client]): an action takes
    that outcome as an argument and runs its continuation in a state and
    exception monad over the root store. *)

From Stdlib Require Import String List ZArith Bool Lia.
From Stdlib Require Import DecimalString.
Import ListNotations.
Open Scope string_scope.
Local Set Warnings "-register-all".

(** ** JavaScript values *)

Inductive Val : Type :=
| VUndef
| VNull
| VBool (b : bool)
| VNum (z : Z)
| VStr (s : string)
| VArr (xs : list Val)
| VObj (kvs : list (string * Val)).

(** A plain object: its own enumerable properties, in insertion order. *)
Definition Obj := list (string * Val).

(** The outcome of a computation that may throw a JavaScript value. *)
Inductive Res (A : Type) : Type :=
| Ok (a : A)
| Throw (e : Val).
Arguments Ok {A} a.
Arguments Throw {A} e.

(** The value thrown by a property read on [null] or [undefined], or by a
    call to a missing method. *)
Definition type_error : Val := VStr "TypeError".

Fixpoint assoc (k : string) (o : Obj) : option Val :=
  match o with
  | [] => None
  | (k', v) :: o' => if String.eqb k k' then Some v else assoc k o'
  end.

(** [o[k]] on a plain object. *)
Definition obj_get (o : Obj) (k : string) : Val :=
  match assoc k o with Some v => v | None => VUndef end.

(** [o[k] = v]: overwrite in place, or add the key at the end. *)
Fixpoint obj_set (o : Obj) (k : string) (v : Val) : Obj :=
  match o with
  | [] => [(k, v)]
  | (k', v') :: o' =>
      if String.eqb k k' then (k, v) :: o' else (k', v') :: obj_set o' k v
  end.

(** [Object.assign(target, source)]: copy the keys of [source], in order. *)
Definition obj_assign (target source : Obj) : Obj :=
  fold_left (fun t kv => obj_set t (fst kv) (snd kv)) source target.

(** Decimal rendering of a natural number and of an integer. *)
Definition string_of_nat (n : nat) : string :=
  NilZero.string_of_uint (Nat.to_uint n).

Definition string_of_Z (z : Z) : string :=
  NilZero.string_of_int (Z.to_int z).

(** [String(v)], as a template literal [`${v}`] renders [v]. *)
Fixpoint js_str (v : Val) : string :=
  match v with
  | VUndef => "undefined"
  | VNull => "null"
  | VBool true => "true"
  | VBool false => "false"
  | VNum z => string_of_Z z
  | VStr s => s
  | VArr xs =>
      (fix join (xs : list Val) : string :=
         match xs with
         | [] => ""
         | [x] => match x with VUndef | VNull => "" | _ => js_str x end
         | x :: xs' =>
             (match x with VUndef | VNull => "" | _ => js_str x end)
               ++ "," ++ join xs'
         end) xs
  | VObj _ => "[object Object]"
  end.

(** Truthiness ([!!v]). *)
Definition truthy (v : Val) : bool :=
  match v with
  | VUndef | VNull => false
  | VBool b => b
  | VNum z => negb (Z.eqb z 0)
  | VStr s => negb (String.eqb s "")
  | VArr _ | VObj _ => true
  end.

(** [a === b].  Arrays and objects compare by reference; two compound values
    read from distinct places of a JSON document are distinct references. *)
Definition seq (a b : Val) : bool :=
  match a, b with
  | VUndef, VUndef | VNull, VNull => true
  | VBool x, VBool y => Bool.eqb x y
  | VNum x, VNum y => Z.eqb x y
  | VStr x, VStr y => String.eqb x y
  | _, _ => false
  end.

(** [ToNumber] on primitives, [None] standing for [NaN].  Strings are read
    as decimal integers (the empty string is 0). *)
Definition to_number (v : Val) : option Z :=
  match v with
  | VNull => Some 0%Z
  | VBool b => Some (if b then 1 else 0)%Z
  | VNum z => Some z
  | VStr s =>
      if String.eqb s "" then Some 0%Z
      else option_map Z.of_int (NilZero.int_of_string s)
  | _ => None
  end.

Definition is_nullish (v : Val) : bool :=
  match v with VUndef | VNull => true | _ => false end.

Definition is_compound (v : Val) : bool :=
  match v with VArr _ | VObj _ => true | _ => false end.

(** [a == b] between primitives. *)
Definition loose_prim (a b : Val) : bool :=
  if is_nullish a || is_nullish b then is_nullish a && is_nullish b
  else match a, b with
       | VStr x, VStr y => String.eqb x y
       | _, _ =>
           match to_number a, to_number b with
           | Some x, Some y => Z.eqb x y
           | _, _ => false
           end
       end.

(** [a == b]: compound values compare by reference with each other, and
    through their string rendering with a primitive. *)
Definition loose (a b : Val) : bool :=
  match is_compound a, is_compound b with
  | true, true => false
  | true, false => if is_nullish b then false else loose_prim (VStr (js_str a)) b
  | false, true => if is_nullish a then false else loose_prim a (VStr (js_str b))
  | false, false => loose_prim a b
  end.

(** Index keys of an array or a string, as [Object.keys] lists them. *)
Fixpoint indexed {A} (n : nat) (xs : list A) : list (string * A) :=
  match xs with
  | [] => []
  | x :: xs' => (string_of_nat n, x) :: indexed (S n) xs'
  end.

Fixpoint chars (s : string) : list Val :=
  match s with
  | EmptyString => []
  | String c s' => VStr (String c EmptyString) :: chars s'
  end.

(** [Object.entries(v)] ([Object.keys(v)] paired with [v[k]]). *)
Definition js_entries (v : Val) : list (string * Val) :=
  match v with
  | VObj kvs => kvs
  | VArr xs => indexed 0 xs
  | VStr s => indexed 0 (chars s)
  | _ => []
  end.

(** [v[k]] on a value that is not [null] or [undefined]. *)
Definition prop (v : Val) (k : string) : Val :=
  match v with
  | VObj o => obj_get o k
  | VArr xs => if String.eqb k "length" then VNum (Z.of_nat (length xs)) else VUndef
  | VStr s => if String.eqb k "length" then VNum (Z.of_nat (String.length s)) else VUndef
  | _ => VUndef
  end.

(** [v[k]]: throws on [null] and [undefined]. *)
Definition get (v : Val) (k : string) : Res Val :=
  if is_nullish v then Throw type_error else Ok (prop v k).

(** ** Identity and matching utilities *)

(** Modelled from the spec: [deepEquals], imported from [./deepEquals],
    which is not part of the sources.  The spec calls it a structural
    equality test: primitives compare by value, arrays element-wise, and
    objects by having the same number of keys, each with a structurally equal
    value. *)
Fixpoint deepEquals (a b : Val) : bool :=
  match a, b with
  | VUndef, VUndef | VNull, VNull => true
  | VBool x, VBool y => Bool.eqb x y
  | VNum x, VNum y => Z.eqb x y
  | VStr x, VStr y => String.eqb x y
  | VArr xs, VArr ys =>
      (fix go (xs ys : list Val) : bool :=
         match xs, ys with
         | [], [] => true
         | x :: xs', y :: ys' => deepEquals x y && go xs' ys'
         | _, _ => false
         end) xs ys
  | VObj xs, VObj ys =>
      Nat.eqb (length xs) (length ys) &&
      (fix go (xs : list (string * Val)) : bool :=
         match xs with
         | [] => true
         | (k, x) :: xs' =>
             match assoc k ys with
             | Some y => deepEquals x y
             | None => false
             end && go xs'
         end) xs
  | _, _ => false
  end.

(** [matches = criteria => test =>
      Object.keys(criteria).every(key => deepEquals(criteria[key], test[key]))] *)
Definition matches (criteria test : Obj) : bool :=
  forallb (fun kv => deepEquals (snd kv) (obj_get test (fst kv))) criteria.

(** [arr.find(p)] *)
Fixpoint find_first {A} (p : A -> bool) (xs : list A) : option A :=
  match xs with
  | [] => None
  | x :: xs' => if p x then Some x else find_first p xs'
  end.

(** The find-then-mutate-or-push pattern of [storeRecord], [STORE_RELATED]
    and [STORE_FILTERED]: the first element satisfying [p] is replaced by
    [upd] of itself; without one, [fresh] is pushed. *)
Fixpoint find_update {A} (p : A -> bool) (upd : A -> A) (fresh : A)
    (xs : list A) : list A :=
  match xs with
  | [] => [fresh]
  | x :: xs' => if p x then upd x :: xs' else x :: find_update p upd fresh xs'
  end.

(** [storeRecord = records => newRecord => ...]: shallow merge onto the
    first record with [r.id === newRecord.id], or push. *)
Definition storeRecord (records : list Obj) (newRecord : Obj) : list Obj :=
  find_update (fun r => seq (obj_get r "id") (obj_get newRecord "id"))
    (fun r => obj_assign r newRecord) newRecord records.

(** [getResourceIdentifier] *)
Definition getResourceIdentifier (resource : Val) : Val :=
  if negb (truthy resource) then resource
  else VObj [("type", prop resource "type"); ("id", prop resource "id")].

(** [getRelationshipType]: [relationship.data] throws when [relationship]
    is [null] or [undefined]. *)
Definition getRelationshipType (relationship : Val) : Res Val :=
  match get relationship "data" with
  | Throw e => Throw e
  | Ok d =>
      let data := match d with
                  | VArr xs => match xs with x :: _ => x | [] => VUndef end
                  | _ => d
                  end in
      Ok (if truthy data then prop data "type" else data)
  end.

(** ** Per-type module state *)

Inductive Status : Type :=
| STATUS_INITIAL
| STATUS_LOADING
| STATUS_ERROR
| STATUS_SUCCESS.

Record State : Type := mkState {
  records : list Obj;
  related : list Obj;
  filtered : list Obj;
  page : list Val;
  error : Val;
  status : Status;
  links : Val;
  lastCreated : Val;
  lastMeta : Val
}.

Definition initialState : State := {|
  records := [];
  related := [];
  filtered := [];
  page := [];
  error := VNull;
  status := STATUS_INITIAL;
  links := VObj [];
  lastCreated := VNull;
  lastMeta := VNull
|}.

Definition set_records (st : State) (rs : list Obj) : State :=
  mkState rs st.(related) st.(filtered) st.(page) st.(error) st.(status)
    st.(links) st.(lastCreated) st.(lastMeta).
Definition set_related (st : State) (rl : list Obj) : State :=
  mkState st.(records) rl st.(filtered) st.(page) st.(error) st.(status)
    st.(links) st.(lastCreated) st.(lastMeta).
Definition set_filtered (st : State) (fl : list Obj) : State :=
  mkState st.(records) st.(related) fl st.(page) st.(error) st.(status)
    st.(links) st.(lastCreated) st.(lastMeta).
Definition set_page (st : State) (p : list Val) : State :=
  mkState st.(records) st.(related) st.(filtered) p st.(error) st.(status)
    st.(links) st.(lastCreated) st.(lastMeta).
Definition set_error (st : State) (e : Val) : State :=
  mkState st.(records) st.(related) st.(filtered) st.(page) e st.(status)
    st.(links) st.(lastCreated) st.(lastMeta).
Definition set_status (st : State) (s : Status) : State :=
  mkState st.(records) st.(related) st.(filtered) st.(page) st.(error) s
    st.(links) st.(lastCreated) st.(lastMeta).
Definition set_links (st : State) (l : Val) : State :=
  mkState st.(records) st.(related) st.(filtered) st.(page) st.(error)
    st.(status) l st.(lastCreated) st.(lastMeta).
Definition set_lastCreated (st : State) (c : Val) : State :=
  mkState st.(records) st.(related) st.(filtered) st.(page) st.(error)
    st.(status) st.(links) c st.(lastMeta).
Definition set_lastMeta (st : State) (m : Val) : State :=
  mkState st.(records) st.(related) st.(filtered) st.(page) st.(error)
    st.(status) st.(links) st.(lastCreated) m.

(** [getRelationshipIndex], inside [resourceModule]: the relationship name
    defaults to the module's resource name. *)
Definition getRelationshipIndex (resourceName : string) (params : Obj) : Obj :=
  let parent := obj_get params "parent" in
  let relationship :=
    match obj_get params "relationship" with
    | VUndef => VStr resourceName
    | r => r
    end in
  [("parent", getResourceIdentifier parent); ("relationship", relationship)].

(** ** Mutations *)

Definition REPLACE_ALL_RECORDS (st : State) (rs : list Obj) : State :=
  set_records st rs.

Definition REPLACE_ALL_RELATED (st : State) (rl : list Obj) : State :=
  set_related st rl.

Definition SET_STATUS (st : State) (s : Status) : State := set_status st s.

Definition STORE_RECORD (st : State) (newRecord : Obj) : State :=
  set_records st (storeRecord st.(records) newRecord).

Definition STORE_RECORDS (st : State) (newRecords : list Obj) : State :=
  set_records st (fold_left storeRecord newRecords st.(records)).

Definition STORE_PAGE (st : State) (rs : list Obj) : State :=
  set_page st (map (fun r => obj_get r "id") rs).

Definition STORE_META (st : State) (meta : Val) : State := set_lastMeta st meta.

Definition STORE_ERROR (st : State) (e : Val) : State := set_error st e.

(** [STORE_RELATED: (state, { relatedIds, params }) => ...] *)
Definition STORE_RELATED (resourceName : string) (st : State)
    (relatedIds : Val) (params : Obj) : State :=
  let relationshipIndex := getRelationshipIndex resourceName params in
  set_related st
    (find_update (matches relationshipIndex)
       (fun e => obj_set e "relatedIds" relatedIds)
       (obj_assign [("relatedIds", relatedIds)] relationshipIndex)
       st.(related)).

(** [STORE_FILTERED: (state, { matchedIds, params }) => ...] *)
Definition STORE_FILTERED (st : State) (matchedIds : Val) (params : Obj) : State :=
  set_filtered st
    (find_update (matches params)
       (fun e => obj_set e "matchedIds" matchedIds)
       (obj_assign [("matchedIds", matchedIds)] params)
       st.(filtered)).

Definition STORE_LAST_CREATED (st : State) (record : Val) : State :=
  set_lastCreated st record.

Definition REMOVE_RECORD (st : State) (record : Obj) : State :=
  set_records st
    (filter (fun r => negb (seq (obj_get r "id") (obj_get record "id")))
       st.(records)).

Definition SET_LINKS (st : State) (l : Val) : State :=
  set_links st (if truthy l then l else VObj []).

Definition RESET_STATE (st : State) : State := initialState.

(** ** Getters *)

(** What the [related] getter returns: [null], an array of records, or a
    single record ([None] standing for [undefined]). *)
Inductive RelatedResult : Type :=
| RNull
| RMany (rs : list Obj)
| ROne (r : option Obj).

(** [state.records.find(record => record.id === id)] *)
Definition findRecord (rs : list Obj) (id : Val) : option Obj :=
  find_first (fun r => seq (obj_get r "id") id) rs.

Module Getters.

Definition isLoading (st : State) : bool :=
  match st.(status) with STATUS_LOADING => true | _ => false end.

Definition isError (st : State) : bool :=
  match st.(status) with STATUS_ERROR => true | _ => false end.

Definition hasPrevious (st : State) : bool := truthy (prop st.(links) "prev").

Definition hasNext (st : State) : bool := truthy (prop st.(links) "next").

Definition all (st : State) : list Obj := st.(records).

(** [byId: state => ({ id }) => state.records.find(r => r.id == id)] *)
Definition byId (st : State) (id : Val) : option Obj :=
  find_first (fun r => loose (obj_get r "id") id) st.(records).

Definition page (st : State) : list (option Obj) :=
  map (findRecord st.(records)) st.(page).

(** [where]: [ids.map] throws unless [matchedIds] is an array. *)
Definition where_ (st : State) (params : Obj) : Res (list (option Obj)) :=
  match find_first (matches params) st.(filtered) with
  | None => Ok []
  | Some entry =>
      match obj_get entry "matchedIds" with
      | VArr ids => Ok (map (findRecord st.(records)) ids)
      | _ => Throw type_error
      end
  end.

Definition related (resourceName : string) (st : State) (params : Obj)
    : RelatedResult :=
  let relationshipIndex := getRelationshipIndex resourceName params in
  match find_first (matches relationshipIndex) st.(related) with
  | None => RNull
  | Some rel =>
      match obj_get rel "relatedIds" with
      | VArr ids =>
          RMany (flat_map (fun id => match findRecord st.(records) id with
                                     | Some r => [r]
                                     | None => []
                                     end) ids)
      | id => ROne (find_first (fun r => seq id (obj_get r "id")) st.(records))
      end
  end.

Definition lastCreated (st : State) : Val := st.(lastCreated).

Definition lastMeta (st : State) : Val := st.(lastMeta).

Definition error (st : State) : Val := st.(error).

End Getters.

(** ** The root store: one module per resource name *)

Definition Root := list (string * State).

Fixpoint module_state (name : string) (root : Root) : option State :=
  match root with
  | [] => None
  | (n, st) :: root' =>
      if String.eqb n name then Some st else module_state name root'
  end.

(** A commit into module [name]; a name with no module is a no-op, as Vuex
    only reports an unknown mutation or action type. *)
Definition update_module (name : string) (f : State -> State) (root : Root) : Root :=
  map (fun nst => if String.eqb (fst nst) name then (fst nst, f (snd nst)) else nst)
    root.

(** ** A state and exception monad over the root store *)

Definition M (A : Type) : Type := Root -> Root * Res A.

Definition retM {A} (a : A) : M A := fun r => (r, Ok a).

Definition bindM {A B} (m : M A) (k : A -> M B) : M B :=
  fun r => match m r with
           | (r', Ok a) => k a r'
           | (r', Throw e) => (r', Throw e)
           end.

Definition throwM {A} (e : Val) : M A := fun r => (r, Throw e).

(** [promise.catch(h)] *)
Definition catchM {A} (m : M A) (h : Val -> M A) : M A :=
  fun r => match m r with
           | (r', Ok a) => (r', Ok a)
           | (r', Throw e) => h e r'
           end.

Definition liftRes {A} (x : Res A) : M A :=
  match x with Ok a => retM a | Throw e => throwM e end.

Definition getsM {A} (f : Root -> A) : M A := fun r => (r, Ok (f r)).

Notation "x <- c1 ;; c2" := (bindM c1 (fun x => c2))
  (at level 61, c1 at next level, right associativity).
Notation "c1 ;; c2" := (bindM c1 (fun _ : unit => c2))
  (at level 61, right associativity).

Definition commit (name : string) (f : State -> State) : M unit :=
  fun r => (update_module name f r, Ok tt).

(** [xs.forEach(f)] / [for (const x of xs) f(x)] *)
Fixpoint iterM {A} (f : A -> M unit) (xs : list A) : M unit :=
  match xs with
  | [] => retM tt
  | x :: xs' => f x ;; iterM f xs'
  end.

Fixpoint mapRes {A B} (f : A -> Res B) (xs : list A) : Res (list B) :=
  match xs with
  | [] => Ok []
  | x :: xs' =>
      match f x with
      | Throw e => Throw e
      | Ok y => match mapRes f xs' with
                | Throw e => Throw e
                | Ok ys => Ok (y :: ys)
                end
      end
  end.

(** [dispatch(`${type}/storeRecord`, record, { root: true })] *)
Definition dispatch_storeRecord (type : string) (record : Obj) : M unit :=
  commit type (fun st => STORE_RECORD st record).

(** [dispatch(`${type}/storeRelated`, { relatedIds, params }, { root: true })] *)
Definition dispatch_storeRelated (type : string) (relatedIds : Val) (params : Obj)
    : M unit :=
  commit type (fun st => STORE_RELATED type st relatedIds params).

(** ** Transport documents *)

(** The primary data of a response: one resource object or an array. *)
Inductive Data : Type :=
| DOne (o : Obj)
| DMany (os : list Obj).

Definition data_list (d : Data) : list Obj :=
  match d with DOne o => [o] | DMany os => os end.

(** A transport response: [{ data, included?, meta?, links? }]. *)
Record Doc (D : Type) : Type := mkDoc {
  data : D;
  included : option (list Obj);
  meta : Val;
  doc_links : Val
}.
Arguments mkDoc {D} data included meta doc_links.
Arguments data {D} d.
Arguments included {D} d.
Arguments meta {D} d.
Arguments doc_links {D} d.

Definition many_doc (d : Doc (list Obj)) : Doc Data :=
  mkDoc (DMany d.(data)) d.(included) d.(meta) d.(doc_links).

Definition one_doc (d : Doc Obj) : Doc Data :=
  mkDoc (DOne d.(data)) d.(included) d.(meta) d.(doc_links).

(** ** Compound-document resolution: [storeIncluded] *)

(** The ids of a relationship's [data]: [data.map(r => r.id)] for an array,
    [data.id] otherwise. *)
Definition relatedIdsOf (d : Val) : Res Val :=
  match d with
  | VArr xs =>
      match mapRes (fun r => get r "id") xs with
      | Ok ids => Ok (VArr ids)
      | Throw e => Throw e
      end
  | _ => Ok (prop d "id")
  end.

(** The body of the inner [forEach] of [storeIncluded], for one
    relationship of [primaryRecord]. *)
Definition storeIncludedRelationship (primaryRecord : Obj)
    (relationshipName : string) (relationship : Val) : M unit :=
  d <- liftRes (get relationship "data") ;;
  if negb (truthy d) || seq (prop d "length") (VNum 0) then retM tt
  else
    type <- liftRes (getRelationshipType relationship) ;;
    relatedIds <- liftRes (relatedIdsOf d) ;;
    dispatch_storeRelated (js_str type) relatedIds
      [("parent", getResourceIdentifier (VObj primaryRecord));
       ("relationship", VStr relationshipName)].

Definition storeIncludedRecord (primaryRecord : Obj) : M unit :=
  let rels := obj_get primaryRecord "relationships" in
  if truthy rels then
    iterM (fun kv => storeIncludedRelationship primaryRecord (fst kv) (snd kv))
      (js_entries rels)
  else retM tt.

(** [storeIncluded]: the second loop reads [result.data] as the response
    carried it.  In [loadAll], [REPLACE_ALL_RECORDS] installs that very array
    as [state.records], so an included record of the module's own type that
    [storeRecord] pushes there is visited again by the second loop; that
    only repeats relationship dispatches, which never touch the records. *)
Definition storeIncluded (result : Doc Data) : M unit :=
  match result.(included) with
  | None => retM tt
  | Some inc =>
      iterM (fun relatedRecord =>
               dispatch_storeRecord (js_str (obj_get relatedRecord "type"))
                 relatedRecord) inc ;;
      let allRecords := app inc (data_list result.(data)) in
      iterM storeIncludedRecord allRecords
  end.

(** ** Actions of the module registered under [resourceName] *)

Section Actions.

Variable resourceName : string.

Definition commitHere (f : State -> State) : M unit := commit resourceName f.

(** [handleError = commit => errorResponse => ...] *)
Definition handleError {A} (errorResponse : Val) : M A :=
  commitHere (fun st => SET_STATUS st STATUS_ERROR) ;;
  commitHere (fun st => STORE_ERROR st errorResponse) ;;
  throwM errorResponse.

(** [p.then(k)]: a rejected transport call skips the continuation. *)
Definition thenM {T} (outcome : Res T) (k : T -> M unit) : M unit :=
  match outcome with
  | Ok t => k t
  | Throw e => throwM e
  end.

Definition loadAll (outcome : Res (Doc (list Obj))) : M unit :=
  commitHere (fun st => SET_STATUS st STATUS_LOADING) ;;
  catchM
    (thenM outcome (fun result =>
       commitHere (fun st => SET_STATUS st STATUS_SUCCESS) ;;
       commitHere (fun st => REPLACE_ALL_RECORDS st result.(data)) ;;
       commitHere (fun st => STORE_META st result.(meta)) ;;
       storeIncluded (many_doc result)))
    handleError.

Definition loadById (outcome : Res (Doc Obj)) : M unit :=
  commitHere (fun st => SET_STATUS st STATUS_LOADING) ;;
  catchM
    (thenM outcome (fun results =>
       commitHere (fun st => SET_STATUS st STATUS_SUCCESS) ;;
       commitHere (fun st => STORE_RECORD st results.(data)) ;;
       commitHere (fun st => STORE_META st results.(meta)) ;;
       storeIncluded (one_doc results)))
    handleError.

Definition loadWhere (params : Obj) (outcome : Res (Doc (list Obj))) : M unit :=
  commitHere (fun st => SET_STATUS st STATUS_LOADING) ;;
  catchM
    (thenM outcome (fun results =>
       commitHere (fun st => SET_STATUS st STATUS_SUCCESS) ;;
       let matchedIds := VArr (map (fun r => obj_get r "id") results.(data)) in
       commitHere (fun st => STORE_RECORDS st results.(data)) ;;
       commitHere (fun st => STORE_FILTERED st matchedIds params) ;;
       commitHere (fun st => STORE_META st results.(meta)) ;;
       storeIncluded (many_doc results)))
    handleError.

Definition loadPage (outcome : Res (Doc (list Obj))) : M unit :=
  commitHere (fun st => SET_STATUS st STATUS_LOADING) ;;
  catchM
    (thenM outcome (fun response =>
       commitHere (fun st => SET_STATUS st STATUS_SUCCESS) ;;
       commitHere (fun st => STORE_RECORDS st response.(data)) ;;
       commitHere (fun st => STORE_PAGE st response.(data)) ;;
       commitHere (fun st => STORE_META st response.(meta)) ;;
       commitHere (fun st => SET_LINKS st response.(doc_links)) ;;
       storeIncluded (many_doc response)))
    handleError.

(** [loadRelated]: [paramsToStore = { ...params, relationship }]; the
    destructuring [const { id, type } = parent] throws on a missing parent. *)
Definition loadRelated (params : Obj) (outcome : Res (Doc Data)) : M unit :=
  let parent := obj_get params "parent" in
  let relationship :=
    match obj_get params "relationship" with
    | VUndef => VStr resourceName
    | r => r
    end in
  commitHere (fun st => SET_STATUS st STATUS_LOADING) ;;
  let paramsToStore := obj_set params "relationship" relationship in
  catchM
    (thenM outcome (fun results =>
       commitHere (fun st => SET_STATUS st STATUS_SUCCESS) ;;
       (if is_nullish parent then throwM type_error else retM tt) ;;
       match results.(data) with
       | DMany relatedRecords =>
           let relatedIds := VArr (map (fun r => obj_get r "id") relatedRecords) in
           commitHere (fun st => STORE_RECORDS st relatedRecords) ;;
           commitHere (fun st => STORE_RELATED resourceName st relatedIds paramsToStore)
       | DOne record =>
           let relatedIds := obj_get record "id" in
           commitHere (fun st => STORE_RECORDS st [record]) ;;
           commitHere (fun st => STORE_RELATED resourceName st relatedIds paramsToStore)
       end ;;
       commitHere (fun st => STORE_META st results.(meta)) ;;
       storeIncluded results))
    handleError.

Definition create (outcome : Res (Doc Obj)) : M unit :=
  thenM outcome (fun result =>
    commitHere (fun st => STORE_RECORD st result.(data)) ;;
    commitHere (fun st => STORE_LAST_CREATED st (VObj result.(data)))).

Definition delete (record : Obj) (outcome : Res unit) : M unit :=
  thenM outcome (fun _ => commitHere (fun st => REMOVE_RECORD st record)).

(** The first loop of [update]: the old cached version's relationship
    [relationship] is stored with [relatedIds: null]. *)
Definition removeOldRelationship (oldRecord : Obj) (relationship : string)
    (entity : Val) : M unit :=
  type <- liftRes (getRelationshipType entity) ;;
  dispatch_storeRelated (js_str type) VNull
    [("relationship", VStr relationship);
     ("parent", getResourceIdentifier (VObj oldRecord))].

(** [const isNonEmptyArray = Array.isArray(data) && Boolean(data.length)] *)
Definition isNonEmptyArray (data : Val) : bool :=
  match data with VArr (_ :: _) => true | _ => false end.

(** [const isObject = Boolean(data && data.type && data.id)] *)
Definition isObject (data : Val) : bool :=
  truthy data && truthy (prop data "type") && truthy (prop data "id").

(** The second loop of [update], for one relationship of the new record. *)
Definition storeNewRelationship (record : Obj) (relationship : string)
    (relationshipObject : Val) : M unit :=
  data <- liftRes (get relationshipObject "data") ;;
  if isNonEmptyArray data || isObject data then
    let paramsToStore :=
      [("parent", getResourceIdentifier (VObj record));
       ("relationship", VStr relationship)] in
    type <- liftRes (getRelationshipType relationshipObject) ;;
    relatedIds <- liftRes (relatedIdsOf data) ;;
    dispatch_storeRelated (js_str type) relatedIds paramsToStore
  else retM tt.

(** [getters.byId({ id })] of this module. *)
Definition byIdHere (id : Val) (root : Root) : option Obj :=
  match module_state resourceName root with
  | Some st => Getters.byId st id
  | None => None
  end.

Definition update {T} (record : Obj) (outcome : Res T) : M unit :=
  thenM outcome (fun _ =>
    oldRecord <- getsM (byIdHere (obj_get record "id")) ;;
    (match oldRecord with
     | Some old =>
         let rels := obj_get old "relationships" in
         if truthy rels then
           iterM (fun kv => removeOldRelationship old (fst kv) (snd kv))
             (js_entries rels)
         else retM tt
     | None => retM tt
     end) ;;
    commitHere (fun st => STORE_RECORD st record) ;;
    let rels := obj_get record "relationships" in
    if truthy rels then
      iterM (fun kv => storeNewRelationship record (fst kv) (snd kv))
        (js_entries rels)
    else retM tt).

Definition storeRecordAction (record : Obj) : M unit :=
  commitHere (fun st => STORE_RECORD st record).

Definition storeRelated (relatedIds : Val) (params : Obj) : M unit :=
  commitHere (fun st => STORE_RELATED resourceName st relatedIds params).

Definition removeRecord (record : Obj) : M unit :=
  commitHere (fun st => REMOVE_RECORD st record).

Definition resetState : M unit := commitHere RESET_STATE.

End Actions.

(** ** The paging and relationship-editing actions *)

Section MoreActions.

Variable resourceName : string.

(** The action context's [state] and [getters] are those of the module the
    action is registered in.  Vuex only runs an action of a registered
    module; on a root without it the model fails. *)
Definition withState {A} (k : State -> M A) : M A :=
  fun r => match module_state resourceName r with
           | Some st => k st r
           | None => (r, Throw type_error)
           end.

(** The shared body of [loadNextPage] ([linkName = "next"]) and
    [loadPreviousPage] ([linkName = "prev"]): [options = { url:
    state.links[linkName] }] is passed to [client.all], whose outcome for a
    given url is [all url]; there is no status change and no [.catch]. *)
Definition followLink (linkName : string) (all : Val -> Res (Doc (list Obj)))
    : M unit :=
  withState (fun st =>
    url <- liftRes (get st.(links) linkName) ;;
    thenM (all url) (fun response =>
      commitHere resourceName (fun st => STORE_RECORDS st response.(data)) ;;
      commitHere resourceName (fun st => STORE_PAGE st response.(data)) ;;
      commitHere resourceName (fun st => SET_LINKS st response.(doc_links)) ;;
      commitHere resourceName (fun st => STORE_META st response.(meta)) ;;
      storeIncluded (many_doc response))).

Definition loadNextPage (all : Val -> Res (Doc (list Obj))) : M unit :=
  followLink "next" all.

Definition loadPreviousPage (all : Val -> Res (Doc (list Obj))) : M unit :=
  followLink "prev" all.

(** [const { parent, relationship = resourceName, data } = params] *)
Definition relationshipParam (params : Obj) : Val :=
  match obj_get params "relationship" with
  | VUndef => VStr resourceName
  | r => r
  end.

(** [getters.related(params).map(o => o.id)]: [null], a single record and
    [undefined] have no [map] method. *)
Definition relatedItemIds (rel : RelatedResult) : Res (list Val) :=
  match rel with
  | RMany rs => Ok (map (fun o => obj_get o "id") rs)
  | _ => Throw type_error
  end.

(** [data.filter(x => !relatedItems.includes(x))]: only arrays have
    [filter]. *)
Definition difference (relatedItems : list Val) (data : Val) : Res (list Val) :=
  match data with
  | VArr xs => Ok (filter (fun x => negb (existsb (fun y => seq y x) relatedItems)) xs)
  | _ => Throw type_error
  end.

(** [addRelated]: its result is the request it sends,
    [client.createRelationships(parent, relationship, records)]. *)
Definition addRelated (params : Obj) : M (Val * Val * list Val) :=
  withState (fun st =>
    let parent := obj_get params "parent" in
    let relationship := relationshipParam params in
    let data := obj_get params "data" in
    relatedItems <- liftRes (relatedItemIds (Getters.related resourceName st params)) ;;
    diff <- liftRes (difference relatedItems data) ;;
    let records := map (fun id => VObj [("type", relationship); ("id", id)]) diff in
    retM (parent, relationship, records)).

(** [relatedIds] of [setRelated] and [removeRelated]:
    [data.map(record => record.id)] for an array, [data.id] otherwise; both
    throw on [null] and [undefined]. *)
Definition idsOfData (data : Val) : Res Val :=
  match data with
  | VArr xs =>
      match mapRes (fun r => get r "id") xs with
      | Ok ids => Ok (VArr ids)
      | Throw e => Throw e
      end
  | _ => get data "id"
  end.

(** [setRelated]: [client.updateRelationships] is called and not awaited. *)
Definition setRelated (params : Obj) : M unit :=
  let parent := obj_get params "parent" in
  let relationship := relationshipParam params in
  let data := obj_get params "data" in
  relatedIds <- liftRes (idsOfData data) ;;
  commitHere resourceName (fun st =>
    STORE_RELATED resourceName st relatedIds
      [("parent", parent); ("relationship", relationship)]).

(** The value thrown by an assignment to an undeclared variable in strict
    (module) code. *)
Definition reference_error : Val := VStr "ReferenceError".

(** [removeRelated]: [relatedIds] is not declared, and module code is strict,
    so [relatedIds = ...] throws a ReferenceError once its right-hand side has
    been evaluated; [commit('REMOVE_RELATED', ...)] is never reached. *)
Definition removeRelated (params : Obj) : M unit :=
  let data := obj_get params "data" in
  relatedIds <- liftRes (idsOfData data) ;;
  throwM reference_error.

(** [commit('REMOVE_RELATED', ...)]: the module declares no such mutation,
    and Vuex only reports an unknown mutation type. *)
Definition commit_REMOVE_RELATED (relatedIds : Val) (params : Obj) : M unit :=
  retM tt.

(** [removeAllRelated]: [client.updateRelationships(parent, relationship, [])]
    is called and not awaited, then [REMOVE_RELATED] is committed. *)
Definition removeAllRelated (params : Obj) : M unit :=
  let parent := obj_get params "parent" in
  let relationship := relationshipParam params in
  commit_REMOVE_RELATED (VArr []) [("parent", parent); ("relationship", relationship)].

End MoreActions.

(** ** [mapResourceModules] *)

(** [o[k] = v] on an object whose values are modules. *)
Fixpoint kv_set {V} (o : list (string * V)) (k : string) (v : V) : list (string * V) :=
  match o with
  | [] => [(k, v)]
  | (k', v') :: o' => if String.eqb k k' then (k', v) :: o' else (k', v') :: kv_set o' k v
  end.

(** [Object.assign(target, source)] on such objects. *)
Definition kv_assign {V} (target source : list (string * V)) : list (string * V) :=
  fold_left (fun o kv => kv_set o (fst kv) (snd kv)) source target.

(** [resourceModule({ name, httpClient })], as the root store holds it: the
    module whose actions, mutations and getters are those above at
    [resourceName := name], with [state: initialState()]. *)
Definition resourceModule (name : string) : State := initialState.

(** [names.reduce((acc, name) =>
      Object.assign({ [name]: resourceModule({ name, httpClient }) }, acc), {})] *)
Definition mapResourceModules (names : list string) : Root :=
  fold_left (fun acc name => kv_assign [(name, resourceModule name)] acc) names [].

(** ** Predicates used by the statements *)

Definition is_prim (v : Val) : bool := negb (is_compound v).

(** A resource identifier [{ type, id }] with primitive fields. *)
Definition simple_ident (p : Val) : Prop :=
  exists t i, p = VObj [("type", t); ("id", i)] /\ is_prim t = true /\ is_prim i = true.

(** A relationship-index key [{ parent, relationship }] with a string
    relationship name. *)
Definition rel_key (p : Val) (n : string) : Obj :=
  [("parent", p); ("relationship", VStr n)].

(** [arr.map(f).filter(x => x !== undefined)], on the results of [f]. *)
Definition somes {A} (xs : list (option A)) : list A :=
  fold_right (fun o acc => match o with Some a => a :: acc | None => acc end) [] xs.

(** A load-class action whose transport call rejected with [e]: the
    promise rejects with [e] and the module is left in the error state. *)
Definition load_rejected (name : string) (e : Val) (res : Root * Res unit) : Prop :=
  snd res = Throw e /\
  exists st, module_state name (fst res) = Some st /\
    st.(status) = STATUS_ERROR /\ Getters.isLoading st = false /\
    Getters.isError st = true /\ Getters.error st = e.

(** An invariant of the root store that every step of a computation keeps. *)
Definition preserves {A} (P : Root -> Prop) (m : M A) : Prop :=
  forall r, P r -> P (fst (m r)).

(** The ids of a list of records, [records.map(({ id }) => id)]. *)
Definition ids_of (rs : list Obj) : list Val := map (fun r => obj_get r "id") rs.

(** The included records of a response ([[]] when it has none). *)
Definition incl_list {D} (d : Doc D) : list Obj :=
  match d.(included) with Some inc => inc | None => [] end.

(** The module [name] exists and the ids of its Entity Store lie between
    the ids of [data] and the ids of [data] and [inc]. *)
Definition store_ids_between (name : string) (data inc : list Obj) (r : Root) : Prop :=
  exists st, module_state name r = Some st /\
    (forall id, In id (ids_of data) -> In id (ids_of st.(records))) /\
    (forall id, In id (ids_of st.(records)) -> In id (ids_of (app data inc))).

(** The module [name] exists and its state satisfies [Q]. *)
Definition module_prop (name : string) (Q : State -> Prop) (r : Root) : Prop :=
  exists st, module_state name r = Some st /\ Q st.

(** The relationship index holds an entry for [key] with [relatedIds = v]. *)
Definition entry_is (key : Obj) (v : Val) (st : State) : Prop :=
  exists e, find_first (matches key) st.(related) = Some e /\ obj_get e "relatedIds" = v.

(** The fields of a module state besides its Entity Store and its
    relationship index. *)
Definition other_fields (st : State) :=
  (st.(filtered), st.(page), st.(error), st.(status), st.(links),
   st.(lastCreated), st.(lastMeta)).

(** A record as [JSON.parse] builds it: no key twice. *)
Definition keys_unique (r : Obj) : Prop := NoDup (map fst r).

(** The Entity Store holds a record with each id of [ids]. *)
Definition holds_ids (ids : list Val) (st : State) : Prop :=
  forall id, In id ids -> In id (ids_of st.(records)).

(** A looked-up entry is a cached record with the id looked up. *)
Definition resolves_to (id : Val) (o : option Obj) : Prop :=
  exists rec, o = Some rec /\ obj_get rec "id" = id.

(** The root after a load-class action whose transport call rejected with
    [e], if only the status and the error of module [name] changed. *)
Definition failed_load (name : string) (e : Val) (root : Root) : Root :=
  update_module name (fun st => STORE_ERROR (SET_STATUS st STATUS_ERROR) e) root.

(** ** Example stores *)

(** The resource identifier of user 42. *)
Definition user42 : Val := VObj [("type", VStr "users"); ("id", VStr "42")].

Definition widget (id : string) : Obj :=
  [("type", VStr "widgets"); ("id", VStr id)].

(** A root store holding a [users] and a [widgets] module. *)
Definition shop_root (ws : list Obj) : Root :=
  [("users", initialState); ("widgets", set_records initialState ws)].

(** A dish whose [comments] relationship holds [cs]. *)
Definition comment (id : string) : Val :=
  VObj [("type", VStr "comments"); ("id", VStr id)].

Definition dish_with_comments (cs : list Val) : Obj :=
  [("type", VStr "dishes"); ("id", VStr "1");
   ("relationships", VObj [("comments", VObj [("data", VArr cs)])])].

(** Dish 1 is cached with comment 5, and the [comments] module has loaded
    that relationship. *)
Definition kitchen_root : Root :=
  [("dishes", set_records initialState [dish_with_comments [comment "5"]]);
   ("comments",
     STORE_RELATED "comments"
       (set_records initialState [[("type", VStr "comments"); ("id", VStr "5")]])
       (VArr [VStr "5"]) (rel_key (VObj (dish_with_comments [comment "5"])) "comments"))].

Definition kitchen_after : Root :=
  fst (update "dishes" (dish_with_comments []) (Ok tt) kitchen_root).

(** A dish whose to-one [restaurant] relationship points at restaurant [id]. *)
Definition dish_with_restaurant (id : string) : Obj :=
  [("type", VStr "dishes"); ("id", VStr "1");
   ("relationships",
     VObj [("restaurant",
             VObj [("data", VObj [("type", VStr "restaurants"); ("id", VStr id)])])])].

Definition restaurant (id : string) : Obj :=
  [("type", VStr "restaurants"); ("id", VStr id)].

Definition diner_root : Root :=
  [("dishes", set_records initialState [dish_with_restaurant "2"]);
   ("restaurants",
     STORE_RELATED "restaurants"
       (set_records initialState [restaurant "2"; restaurant "3"])
       (VStr "2") (rel_key (VObj (dish_with_restaurant "2")) "restaurant"))].

Definition diner_after : Root :=
  fst (update "dishes" (dish_with_restaurant "3") (Ok tt) diner_root).

(** A post whose to-one [author] relationship is [null]. *)
Definition post_with_null_author : Obj :=
  [("type", VStr "posts"); ("id", VStr "1");
   ("relationships", VObj [("author", VObj [("data", VNull)])])].

Definition blog_root : Root := [("posts", initialState); ("users", initialState)].

Definition blog_after : Root :=
  fst (loadById "posts" (Ok (mkDoc post_with_null_author (Some []) VNull VNull))
         blog_root).

(** Example inputs of the further properties. *)
Definition page_doc : Doc (list Obj) :=
  mkDoc [widget "1"; widget "2"] (Some []) VNull
    (VObj [("next", VStr "/widgets?page=2")]).

Definition paged_root : Root :=
  [("widgets", set_links (set_records initialState [widget "9"])
                 (VObj [("next", VStr "/widgets?page=2"); ("prev", VStr "/widgets?page=0")]))].



(** * Lemmas about the embedding *)

Local Open Scope list_scope.

(** ** Objects and values *)

Lemma obj_get_set_same (o : Obj) (k : string) (v : Val) :
  obj_get (obj_set o k v) k = v.
Proof.
  unfold obj_get. induction o as [|[k' v'] o IH]; simpl.
  - now rewrite String.eqb_refl.
  - destruct (String.eqb k k') eqn:E; simpl.
    + now rewrite String.eqb_refl.
    + now rewrite E.
Qed.

Lemma obj_get_set_other (o : Obj) (k k' : string) (v : Val) :
  k' <> k -> obj_get (obj_set o k v) k' = obj_get o k'.
Proof.
  intros Hne. unfold obj_get. induction o as [|[k0 v0] o IH]; simpl.
  - apply String.eqb_neq in Hne. now rewrite Hne.
  - destruct (String.eqb k k0) eqn:E; simpl.
    + apply String.eqb_eq in E; subst k0.
      apply String.eqb_neq in Hne. now rewrite Hne.
    + destruct (String.eqb k' k0); auto.
Qed.

(** After [Object.assign(e, r)], a key holds its old value or one that [r]
    carries under that key. *)
Lemma obj_get_assign (e r : Obj) (k : string) :
  obj_get (obj_assign e r) k = obj_get e k \/ In (k, obj_get (obj_assign e r) k) r.
Proof.
  revert e. induction r as [|[k0 v0] r IH]; intros e; simpl.
  - now left.
  - unfold obj_assign in *. simpl.
    destruct (IH (obj_set e k0 v0)) as [H|H].
    + rewrite H. destruct (String.eqb_spec k0 k) as [->|Hne].
      * right. left. now rewrite obj_get_set_same.
      * left. now apply obj_get_set_other.
    + right. now right.
Qed.

Lemma seq_eq (a b : Val) : seq a b = true -> a = b.
Proof.
  destruct a, b; simpl; intros H; try discriminate; auto.
  - apply Bool.eqb_prop in H. now subst.
  - apply Z.eqb_eq in H. now subst.
  - apply String.eqb_eq in H. now subst.
Qed.

Lemma seq_sym (a b : Val) : seq a b = seq b a.
Proof.
  destruct a, b; simpl; auto.
  - destruct b, b0; reflexivity.
  - apply Z.eqb_sym.
  - apply String.eqb_sym.
Qed.

Lemma seq_refl_prim (v : Val) : is_prim v = true -> seq v v = true.
Proof.
  destruct v; simpl; intros H; try discriminate; auto.
  - apply Bool.eqb_reflx.
  - apply Z.eqb_refl.
  - apply String.eqb_refl.
Qed.

Lemma deepEquals_refl_prim (v : Val) : is_prim v = true -> deepEquals v v = true.
Proof.
  destruct v; simpl; intros H; try discriminate; auto.
  - apply Bool.eqb_reflx.
  - apply Z.eqb_refl.
  - apply String.eqb_refl.
Qed.

Lemma deepEquals_str (s : string) (v : Val) :
  deepEquals (VStr s) v = true -> v = VStr s.
Proof.
  destruct v; simpl; intros H; try discriminate.
  apply String.eqb_eq in H. now subst.
Qed.

Lemma deepEquals_refl_ident (p : Val) : simple_ident p -> deepEquals p p = true.
Proof.
  intros (t & i & -> & Ht & Hi). simpl.
  rewrite !deepEquals_refl_prim by assumption. reflexivity.
Qed.

Lemma getResourceIdentifier_ident (o : Obj) :
  getResourceIdentifier (VObj o)
  = VObj [("type", obj_get o "type"); ("id", obj_get o "id")].
Proof. reflexivity. Qed.

Lemma getResourceIdentifier_idem (v : Val) :
  getResourceIdentifier (getResourceIdentifier v) = getResourceIdentifier v.
Proof.
  unfold getResourceIdentifier.
  destruct (truthy v) eqn:E; simpl; rewrite ?E; reflexivity.
Qed.

(** ** The find-then-mutate-or-push pattern *)

Lemma find_update_found {A} (p : A -> bool) upd fresh xs :
  (forall x, p (upd x) = p x) -> p fresh = true ->
  find_first p (find_update p upd fresh xs)
  = Some (match find_first p xs with Some x => upd x | None => fresh end).
Proof.
  intros Hupd Hfresh. induction xs as [|x xs IH]; simpl.
  - now rewrite Hfresh.
  - destruct (p x) eqn:E; simpl.
    + now rewrite Hupd, E.
    + now rewrite E.
Qed.

Lemma find_update_frame {A} (p q : A -> bool) upd fresh xs :
  (forall x, q x = true -> p x = false) ->
  (forall x, q (upd x) = q x) -> q fresh = false ->
  find_first q (find_update p upd fresh xs) = find_first q xs.
Proof.
  intros Hexcl Hupd Hfresh. induction xs as [|x xs IH]; simpl.
  - now rewrite Hfresh.
  - destruct (p x) eqn:E; simpl.
    + destruct (q x) eqn:Q.
      * now rewrite (Hexcl x Q) in E.
      * now rewrite Hupd, Q.
    + destruct (q x); auto.
Qed.

Lemma find_update_app {A} (p : A -> bool) upd fresh pre x post :
  forallb (fun y => negb (p y)) pre = true -> p x = true ->
  find_update p upd fresh (pre ++ x :: post) = pre ++ upd x :: post.
Proof.
  intros Hpre Hx. induction pre as [|y pre IH]; simpl in *.
  - now rewrite Hx.
  - apply andb_prop in Hpre as [Hy Hpre].
    destruct (p y); simpl in Hy; [discriminate|]. now rewrite IH.
Qed.

Lemma find_update_none {A} (p : A -> bool) upd fresh xs :
  forallb (fun y => negb (p y)) xs = true ->
  find_update p upd fresh xs = xs ++ [fresh].
Proof.
  intros H. induction xs as [|y xs IH]; simpl in *; auto.
  apply andb_prop in H as [Hy H].
  destruct (p y); simpl in Hy; [discriminate|]. now rewrite IH.
Qed.

(** ** Index keys *)

Lemma getRelationshipIndex_key (resourceName : string) (p : Val) (n : string) :
  getRelationshipIndex resourceName (rel_key p n) = rel_key (getResourceIdentifier p) n.
Proof. reflexivity. Qed.

Lemma matches_set_relatedIds (key e : Obj) (v : Val) (p : Val) (n : string) :
  key = rel_key p n ->
  matches key (obj_set e "relatedIds" v) = matches key e.
Proof.
  intros ->. unfold matches. simpl.
  rewrite !obj_get_set_other by discriminate. reflexivity.
Qed.

Lemma matches_rel_key_excl (p p' : Val) (n n' : string) (e : Obj) :
  n <> n' -> matches (rel_key p' n') e = true -> matches (rel_key p n) e = false.
Proof.
  intros Hne H. unfold matches in *. simpl in *.
  rewrite andb_true_r in H. apply andb_prop in H as [_ H].
  apply deepEquals_str in H. rewrite H. simpl.
  apply String.eqb_neq in Hne. rewrite Hne. apply andb_false_r.
Qed.

(** A [STORE_RELATED] under one key leaves the entry found under a key with
    another relationship name as it was. *)
Lemma STORE_RELATED_frame (T : string) (st : State) (ids : Val) (q p' : Val)
    (n n' : string) (params : Obj) :
  n <> n' -> getRelationshipIndex T params = rel_key p' n' ->
  find_first (matches (rel_key q n)) (STORE_RELATED T st ids params).(related)
  = find_first (matches (rel_key q n)) st.(related).
Proof.
  intros Hne Hidx. unfold STORE_RELATED. rewrite Hidx. simpl.
  apply find_update_frame.
  - intros x Hx. destruct (matches (rel_key p' n') x) eqn:E; auto.
    rewrite (matches_rel_key_excl q p' n n') in Hx; auto.
  - intros x. now apply matches_set_relatedIds with q n.
  - unfold matches. simpl. apply String.eqb_neq in Hne.
    rewrite Hne. now rewrite !andb_false_r.
Qed.

(** A [STORE_RELATED] under a key makes that key's entry hold the ids. *)
Lemma STORE_RELATED_found (T : string) (st : State) (ids : Val) (params : Obj)
    (q : Val) (n : string) :
  getRelationshipIndex T params = rel_key q n -> simple_ident q ->
  exists e,
    find_first (matches (rel_key q n)) (STORE_RELATED T st ids params).(related) = Some e
    /\ obj_get e "relatedIds" = ids.
Proof.
  intros Hidx Hid. unfold STORE_RELATED. rewrite Hidx. simpl.
  rewrite find_update_found.
  - destruct (find_first _ _).
    + eexists; split; [reflexivity|]. apply obj_get_set_same.
    + eexists; split; [reflexivity|]. reflexivity.
  - intros x. now apply matches_set_relatedIds with q n.
  - unfold matches. simpl. rewrite deepEquals_refl_ident by assumption.
    simpl. now rewrite String.eqb_refl.
Qed.

(** ** The root store *)

Lemma module_state_update_same (name : string) f root :
  module_state name (update_module name f root)
  = option_map f (module_state name root).
Proof.
  induction root as [|[n st] root IH]; simpl; auto.
  destruct (String.eqb n name) eqn:E; simpl; rewrite E; auto.
Qed.

Lemma module_state_update_other (name name' : string) f root :
  name' <> name ->
  module_state name (update_module name' f root) = module_state name root.
Proof.
  intros Hne. induction root as [|[n st] root IH]; simpl; auto.
  destruct (String.eqb n name') eqn:E; simpl.
  - apply String.eqb_eq in E; subst n.
    apply String.eqb_neq in Hne. now rewrite Hne.
  - destruct (String.eqb n name); auto.
Qed.

Lemma assoc_set_same (o : Obj) (k : string) (v : Val) :
  assoc k (obj_set o k v) = Some v.
Proof.
  induction o as [|[k' v'] o IH]; simpl.
  - now rewrite String.eqb_refl.
  - destruct (String.eqb k k') eqn:E; simpl.
    + now rewrite String.eqb_refl.
    + now rewrite E.
Qed.

Lemma assoc_set_other (o : Obj) (k k' : string) (v : Val) :
  k' <> k -> assoc k' (obj_set o k v) = assoc k' o.
Proof.
  intros Hne. induction o as [|[k0 v0] o IH]; simpl.
  - apply String.eqb_neq in Hne. now rewrite Hne.
  - destruct (String.eqb k k0) eqn:E; simpl.
    + apply String.eqb_eq in E; subst k0.
      apply String.eqb_neq in Hne. now rewrite Hne.
    + destruct (String.eqb k' k0); auto.
Qed.

Lemma obj_assign_cons (o : Obj) (k : string) (v : Val) (r : Obj) :
  obj_assign o ((k, v) :: r) = obj_assign (obj_set o k v) r.
Proof. reflexivity. Qed.

Lemma obj_set_noop (o : Obj) (k : string) (v : Val) :
  assoc k o = Some v -> obj_set o k v = o.
Proof.
  induction o as [|[k' v'] o IH]; simpl; intros H; [discriminate|].
  destruct (String.eqb k k') eqn:E.
  - apply String.eqb_eq in E. injection H as ->. now subst.
  - now rewrite IH.
Qed.

Lemma obj_assign_noop (o r : Obj) :
  (forall k v, In (k, v) r -> assoc k o = Some v) -> obj_assign o r = o.
Proof.
  revert o. induction r as [|[k v] r IH]; intros o H; [reflexivity|].
  rewrite obj_assign_cons.
  rewrite obj_set_noop by (apply H; now left).
  apply IH. intros k' v' Hin. apply H. now right.
Qed.

Lemma assoc_assign_notin (o r : Obj) (k : string) :
  ~ In k (map fst r) -> assoc k (obj_assign o r) = assoc k o.
Proof.
  revert o. induction r as [|[k0 v0] r IH]; intros o Hn; [reflexivity|].
  rewrite obj_assign_cons. simpl in Hn.
  rewrite IH by tauto. apply assoc_set_other. intros ->. tauto.
Qed.

Lemma assoc_assign_in (o r : Obj) (k : string) (v : Val) :
  NoDup (map fst r) -> In (k, v) r -> assoc k (obj_assign o r) = Some v.
Proof.
  revert o. induction r as [|[k0 v0] r IH]; intros o Hnd Hin; [simpl in Hin; tauto|].
  simpl in Hnd, Hin. inversion Hnd as [|? ? Hk0 Hnd']; subst.
  rewrite obj_assign_cons.
  destruct Hin as [Heq|Hin].
  - injection Heq as <- <-.
    rewrite assoc_assign_notin by assumption. apply assoc_set_same.
  - now apply IH.
Qed.

Lemma assoc_In_NoDup (r : Obj) (k : string) (v : Val) :
  NoDup (map fst r) -> In (k, v) r -> assoc k r = Some v.
Proof.
  induction r as [|[k0 v0] r IH]; simpl; intros Hnd Hin; [tauto|].
  inversion Hnd as [|? ? Hk0 Hnd']; subst.
  destruct Hin as [Heq|Hin].
  - injection Heq as <- <-. now rewrite String.eqb_refl.
  - destruct (String.eqb k k0) eqn:E.
    + apply String.eqb_eq in E; subst k0.
      exfalso. apply Hk0. apply (in_map fst) in Hin. exact Hin.
    + now apply IH.
Qed.

Lemma obj_assign_idem (e r : Obj) :
  NoDup (map fst r) -> obj_assign (obj_assign e r) r = obj_assign e r.
Proof.
  intros Hnd. apply obj_assign_noop. intros k v Hin. now apply assoc_assign_in.
Qed.

Lemma obj_get_In_NoDup (r : Obj) (k : string) (v : Val) :
  NoDup (map fst r) -> In (k, v) r -> obj_get r k = v.
Proof. intros. unfold obj_get. now rewrite (assoc_In_NoDup r k v). Qed.

Lemma find_split {A} (p : A -> bool) (xs : list A) :
  forallb (fun y => negb (p y)) xs = true \/
  exists pre x post, xs = pre ++ x :: post /\
    forallb (fun y => negb (p y)) pre = true /\ p x = true.
Proof.
  induction xs as [|y xs IH]; simpl; auto.
  destruct (p y) eqn:E.
  - right. exists [], y, xs. auto.
  - destruct IH as [H|(pre & x & post & -> & Hpre & Hx)].
    + now left.
    + right. exists (y :: pre), x, post. simpl. rewrite E. auto.
Qed.

Lemma find_first_none {A} (p : A -> bool) (xs : list A) :
  (forall x, In x xs -> p x = false) -> find_first p xs = None.
Proof.
  induction xs as [|x xs IH]; simpl; intros H; auto.
  rewrite H by auto. apply IH. auto.
Qed.

Lemma flat_map_somes {A B} (f : A -> option B) (xs : list A) :
  flat_map (fun x => match f x with Some r => [r] | None => [] end) xs
  = somes (map f xs).
Proof.
  induction xs as [|x xs IH]; simpl; auto.
  destruct (f x); simpl; now rewrite IH.
Qed.

(** ** The Entity Store upsert *)

Lemma storeRecord_merged_id (e r : Obj) :
  NoDup (map fst r) -> seq (obj_get e "id") (obj_get r "id") = true ->
  obj_get (obj_assign e r) "id" = obj_get r "id".
Proof.
  intros Hnd Hs. destruct (obj_get_assign e r "id") as [H|H].
  - rewrite H. now apply seq_eq.
  - symmetry. now apply obj_get_In_NoDup.
Qed.

(** ** Invariants of the root store *)

Lemma preserves_ret {A} P (a : A) : preserves P (retM a).
Proof. intros r H. exact H. Qed.

Lemma preserves_throw {A} P (e : Val) : preserves P (@throwM A e).
Proof. intros r H. exact H. Qed.

Lemma preserves_liftRes {A} P (x : Res A) : preserves P (liftRes x).
Proof. destruct x; [apply preserves_ret|apply preserves_throw]. Qed.

Lemma preserves_bind {A B} P (m : M A) (k : A -> M B) :
  preserves P m -> (forall a, preserves P (k a)) -> preserves P (bindM m k).
Proof.
  intros Hm Hk r Hr. unfold bindM. specialize (Hm r Hr).
  destruct (m r) as [r' [a|e]]; simpl in *; auto. now apply Hk.
Qed.

Lemma preserves_iterM {A} P (f : A -> M unit) (xs : list A) :
  (forall x, In x xs -> preserves P (f x)) -> preserves P (iterM f xs).
Proof.
  induction xs as [|x xs IH]; intros H; simpl.
  - apply preserves_ret.
  - apply preserves_bind.
    + apply H. now left.
    + intros _. apply IH. intros y Hy. apply H. now right.
Qed.

(** A commit that leaves the Entity Store of every module as it is. *)
Lemma preserves_commit_records (name n : string) data inc (f : State -> State) :
  (forall st, (f st).(records) = st.(records)) ->
  preserves (store_ids_between name data inc) (commit n f).
Proof.
  intros Hf r (st & Hst & H1 & H2). unfold commit. simpl.
  destruct (String.eqb_spec n name) as [->|Hne].
  - exists (f st). rewrite module_state_update_same, Hst. rewrite Hf. auto.
  - exists st. rewrite module_state_update_other by assumption. auto.
Qed.

Lemma storeRecord_cons (x : Obj) (xs : list Obj) (r : Obj) :
  storeRecord (x :: xs) r
  = if seq (obj_get x "id") (obj_get r "id") then obj_assign x r :: xs
    else x :: storeRecord xs r.
Proof. reflexivity. Qed.

(** The ids of the Entity Store after an upsert are the ids before and the
    id of the upserted record. *)
Lemma storeRecord_ids (rs : list Obj) (r : Obj) (id : Val) :
  NoDup (map fst r) ->
  In id (ids_of (storeRecord rs r)) <-> In id (ids_of rs) \/ id = obj_get r "id".
Proof.
  intros Hnd. induction rs as [|x xs IH].
  - simpl. intuition.
  - rewrite storeRecord_cons.
    destruct (seq (obj_get x "id") (obj_get r "id")) eqn:E.
    + pose proof (seq_eq _ _ E) as Hx. unfold ids_of in *. simpl.
      rewrite storeRecord_merged_id by assumption. rewrite Hx. intuition.
    + unfold ids_of in *. simpl. rewrite IH. intuition.
Qed.

Lemma preserves_storeRecord (name n : string) data inc (rec : Obj) :
  In rec inc -> NoDup (map fst rec) ->
  preserves (store_ids_between name data inc) (dispatch_storeRecord n rec).
Proof.
  intros Hin Hnd r (st & Hst & H1 & H2). unfold dispatch_storeRecord, commit. simpl.
  destruct (String.eqb_spec n name) as [->|Hne].
  - exists (STORE_RECORD st rec). rewrite module_state_update_same, Hst.
    split; [reflexivity|]. simpl. split.
    + intros id Hid. apply storeRecord_ids; auto.
    + intros id Hid. apply storeRecord_ids in Hid as [Hid| ->]; auto.
      unfold ids_of. rewrite map_app. apply in_or_app. right.
      exact (in_map (fun r => obj_get r "id") inc rec Hin).
  - exists st. rewrite module_state_update_other by assumption. auto.
Qed.

Lemma preserves_storeIncludedRelationship (name : string) data inc
    (primaryRecord : Obj) (n : string) (rel : Val) :
  preserves (store_ids_between name data inc)
    (storeIncludedRelationship primaryRecord n rel).
Proof.
  unfold storeIncludedRelationship. apply preserves_bind; [apply preserves_liftRes|].
  intros d. destruct (_ || _); [apply preserves_ret|].
  apply preserves_bind; [apply preserves_liftRes|]. intros type.
  apply preserves_bind; [apply preserves_liftRes|]. intros ids.
  unfold dispatch_storeRelated. now apply preserves_commit_records.
Qed.

Lemma preserves_storeIncluded (name : string) (doc : Doc Data) data :
  Forall (fun r => NoDup (map fst r)) (incl_list doc) ->
  preserves (store_ids_between name data (incl_list doc)) (storeIncluded doc).
Proof.
  intros Hnd. unfold storeIncluded, incl_list in *.
  destruct (included doc) as [inc|]; [|apply preserves_ret].
  apply preserves_bind.
  - apply preserves_iterM. intros rec Hin. apply preserves_storeRecord; auto.
    rewrite Forall_forall in Hnd. auto.
  - intros _. apply preserves_iterM. intros rec _.
    unfold storeIncludedRecord. destruct (truthy _); [|apply preserves_ret].
    apply preserves_iterM. intros kv _. apply preserves_storeIncludedRelationship.
Qed.

Lemma loadAll_ok (name : string) (doc : Doc (list Obj)) (root : Root) :
  loadAll name (Ok doc) root
  = catchM (storeIncluded (many_doc doc)) (handleError name)
      (update_module name (fun st => STORE_META st doc.(meta))
        (update_module name (fun st => REPLACE_ALL_RECORDS st doc.(data))
          (update_module name (fun st => SET_STATUS st STATUS_SUCCESS)
            (update_module name (fun st => SET_STATUS st STATUS_LOADING) root)))).
Proof. reflexivity. Qed.

(** ** Steps of [update] *)

Lemma bind_ok {A B} (m : M A) (k : A -> M B) (r r' : Root) (b : B) :
  bindM m k r = (r', Ok b) -> exists r1 a, m r = (r1, Ok a) /\ k a r1 = (r', Ok b).
Proof.
  unfold bindM. destruct (m r) as [r1 [a|e]]; intros H; [eauto|discriminate].
Qed.

Lemma iterM_app {A} (f : A -> M unit) (xs ys : list A) (r : Root) :
  iterM f (app xs ys) r = bindM (iterM f xs) (fun _ => iterM f ys) r.
Proof.
  revert r. induction xs as [|x xs IH]; intros r; [reflexivity|].
  cbn [iterM app]. unfold bindM at 1 2 3.
  destruct (f x r) as [r1 [a|e]]; [|reflexivity].
  rewrite IH. reflexivity.
Qed.

Lemma iterM_split_ok {A} (f : A -> M unit) (pre : list A) (x : A) (post : list A)
    (r r' : Root) :
  iterM f (app pre (x :: post)) r = (r', Ok tt) ->
  exists r1 r2, iterM f pre r = (r1, Ok tt) /\ f x r1 = (r2, Ok tt) /\
    iterM f post r2 = (r', Ok tt).
Proof.
  rewrite iterM_app. intros H. apply bind_ok in H as (r1 & [] & H1 & H2).
  cbn [iterM] in H2. apply bind_ok in H2 as (r2 & [] & H3 & H4). eauto.
Qed.

Lemma In_split_NoDup {V} (k : string) (v : V) (l : list (string * V)) :
  In (k, v) l -> NoDup (map fst l) ->
  exists pre post, l = app pre ((k, v) :: post) /\
    (forall k' v', In (k', v') post -> k' <> k).
Proof.
  intros Hin Hnd. destruct (in_split _ _ Hin) as (pre & post & ->).
  exists pre, post. split; [reflexivity|].
  intros k' v' Hk' ->. rewrite map_app in Hnd. simpl in Hnd.
  apply NoDup_remove_2 in Hnd. apply Hnd. apply in_or_app. right.
  exact (in_map fst post (k, v') Hk').
Qed.

Lemma preserves_commit_module (name n : string) (Q : State -> Prop) (f : State -> State) :
  (forall st, Q st -> Q (f st)) -> preserves (module_prop name Q) (commit n f).
Proof.
  intros Hf r (st & Hst & HQ). unfold commit. simpl.
  destruct (String.eqb_spec n name) as [->|Hne].
  - exists (f st). rewrite module_state_update_same, Hst. auto.
  - exists st. rewrite module_state_update_other by assumption. auto.
Qed.

(** The steps of both loops of [update] only touch relationship indexes. *)
Lemma preserves_removeOld (name : string) (Q : State -> Prop) old k ent :
  (forall T st ids params, Q st -> Q (STORE_RELATED T st ids params)) ->
  preserves (module_prop name Q) (removeOldRelationship old k ent).
Proof.
  intros HQ. unfold removeOldRelationship.
  apply preserves_bind; [apply preserves_liftRes|]. intros type.
  unfold dispatch_storeRelated. apply preserves_commit_module. auto.
Qed.

Lemma preserves_storeNew (name : string) (Q : State -> Prop) record k o :
  (forall T st ids params, Q st -> Q (STORE_RELATED T st ids params)) ->
  preserves (module_prop name Q) (storeNewRelationship record k o).
Proof.
  intros HQ. unfold storeNewRelationship.
  apply preserves_bind; [apply preserves_liftRes|]. intros data.
  destruct (_ || _); [|apply preserves_ret].
  apply preserves_bind; [apply preserves_liftRes|]. intros type.
  apply preserves_bind; [apply preserves_liftRes|]. intros ids.
  unfold dispatch_storeRelated. apply preserves_commit_module. auto.
Qed.

(** The relationship index entry of a key is kept by a [STORE_RELATED] under
    another relationship name, and by every mutation of the records. *)
Lemma entry_is_STORE_RELATED_frame (q : Val) (n k : string) (v : Val) T st ids params p' :
  k <> n -> getRelationshipIndex T params = rel_key p' k ->
  entry_is (rel_key q n) v st -> entry_is (rel_key q n) v (STORE_RELATED T st ids params).
Proof.
  intros Hk Hidx (e & Hf & He). exists e. split; [|exact He].
  rewrite (STORE_RELATED_frame T st ids q p' n k params); auto.
Qed.

Lemma preserves_removeOld_frame (name : string) (q : Val) (n : string) (v : Val) old k ent :
  k <> n -> preserves (module_prop name (entry_is (rel_key q n) v))
              (removeOldRelationship old k ent).
Proof.
  intros Hk. unfold removeOldRelationship.
  apply preserves_bind; [apply preserves_liftRes|]. intros type.
  unfold dispatch_storeRelated. apply preserves_commit_module.
  intros st. apply (entry_is_STORE_RELATED_frame q n k v _ st _ _
    (getResourceIdentifier (getResourceIdentifier (VObj old))) Hk).
  reflexivity.
Qed.

Lemma preserves_storeNew_frame (name : string) (q : Val) (n : string) (v : Val) record k o :
  k <> n -> preserves (module_prop name (entry_is (rel_key q n) v))
              (storeNewRelationship record k o).
Proof.
  intros Hk. unfold storeNewRelationship.
  apply preserves_bind; [apply preserves_liftRes|]. intros data.
  destruct (_ || _); [|apply preserves_ret].
  apply preserves_bind; [apply preserves_liftRes|]. intros type.
  apply preserves_bind; [apply preserves_liftRes|]. intros ids.
  unfold dispatch_storeRelated. apply preserves_commit_module.
  intros st. apply (entry_is_STORE_RELATED_frame q n k v _ st _ _
    (getResourceIdentifier (getResourceIdentifier (VObj record))) Hk).
  reflexivity.
Qed.

Lemma storeNew_skip record k o d (r : Root) :
  get o "data" = Ok d -> isNonEmptyArray d || isObject d = false ->
  storeNewRelationship record k o r = (r, Ok tt).
Proof.
  intros Hd Hc. unfold storeNewRelationship, bindM, liftRes.
  rewrite Hd. unfold retM. rewrite Hc. reflexivity.
Qed.

(** The first loop of [update] records [relatedIds = null] under the old
    version's key. *)
Lemma removeOld_establishes (T : string) old n ent (r r' : Root) :
  getRelationshipType ent = Ok (VStr T) ->
  simple_ident (getResourceIdentifier (VObj old)) ->
  module_prop T (fun _ => True) r ->
  removeOldRelationship old n ent r = (r', Ok tt) ->
  module_prop T (entry_is (rel_key (getResourceIdentifier (VObj old)) n) VNull) r'.
Proof.
  intros Hty Hid (st & Hst & _) H.
  unfold removeOldRelationship, bindM, liftRes in H. rewrite Hty in H.
  unfold retM, dispatch_storeRelated, commit in H. simpl js_str in H.
  injection H as <-.
  exists (STORE_RELATED T st VNull
            [("relationship", VStr n); ("parent", getResourceIdentifier (VObj old))]).
  rewrite module_state_update_same, Hst. split; [reflexivity|].
  apply STORE_RELATED_found; [|exact Hid].
  unfold getRelationshipIndex, rel_key, obj_get. simpl.
  now rewrite getResourceIdentifier_idem.
Qed.

(** The second loop of [update] stores the new ids under the new key. *)
Lemma storeNew_establishes (T : string) record n o d ids (r r' : Root) :
  get o "data" = Ok d -> isNonEmptyArray d || isObject d = true ->
  getRelationshipType o = Ok (VStr T) -> relatedIdsOf d = Ok ids ->
  simple_ident (getResourceIdentifier (VObj record)) ->
  module_prop T (fun _ => True) r ->
  storeNewRelationship record n o r = (r', Ok tt) ->
  module_prop T (entry_is (rel_key (getResourceIdentifier (VObj record)) n) ids) r'.
Proof.
  intros Hd Hc Hty Hids Hid (st & Hst & _) H.
  unfold storeNewRelationship, bindM, liftRes in H. rewrite Hd in H.
  unfold retM in H. rewrite Hc, Hty, Hids in H.
  unfold dispatch_storeRelated, commit in H. simpl js_str in H.
  injection H as <-.
  exists (STORE_RELATED T st ids
            [("parent", getResourceIdentifier (VObj record)); ("relationship", VStr n)]).
  rewrite module_state_update_same, Hst. split; [reflexivity|].
  apply STORE_RELATED_found; [|exact Hid].
  unfold getRelationshipIndex, rel_key, obj_get. simpl.
  now rewrite getResourceIdentifier_idem.
Qed.

(** A successful [update] runs the removal loop, then [STORE_RECORD], then
    the loop over the new relationships. *)
Lemma update_ok (R : string) (record : Obj) (u : unit) (root root' : Root) :
  update R record (Ok u) root = (root', Ok tt) ->
  exists r1,
    (match byIdHere R (obj_get record "id") root with
     | Some old =>
         if truthy (obj_get old "relationships") then
           iterM (fun kv => removeOldRelationship old (fst kv) (snd kv))
             (js_entries (obj_get old "relationships"))
         else retM tt
     | None => retM tt
     end) root = (r1, Ok tt) /\
    (if truthy (obj_get record "relationships") then
       iterM (fun kv => storeNewRelationship record (fst kv) (snd kv))
         (js_entries (obj_get record "relationships"))
     else retM tt) (update_module R (fun st => STORE_RECORD st record) r1)
    = (root', Ok tt).
Proof.
  unfold update, thenM. intros H.
  apply bind_ok in H as (r0 & old & H0 & H).
  unfold getsM in H0. injection H0 as <- <-.
  apply bind_ok in H as (r1 & [] & H1 & H).
  exists r1. split; [exact H1|].
  apply bind_ok in H as (r2 & [] & H2 & H).
  unfold commitHere, commit in H2. injection H2 as <-. exact H.
Qed.

(** The removal loop of [update] keeps every property of a module that
    [STORE_RELATED] keeps. *)
Lemma preserves_removal (name : string) (Q : State -> Prop) (R : string) (record : Obj)
    (root : Root) :
  (forall T st ids params, Q st -> Q (STORE_RELATED T st ids params)) ->
  preserves (module_prop name Q)
    (match byIdHere R (obj_get record "id") root with
     | Some old =>
         if truthy (obj_get old "relationships") then
           iterM (fun kv => removeOldRelationship old (fst kv) (snd kv))
             (js_entries (obj_get old "relationships"))
         else retM tt
     | None => retM tt
     end).
Proof.
  intros HQ. destruct (byIdHere R _ root) as [old|]; [|apply preserves_ret].
  destruct (truthy _); [|apply preserves_ret].
  apply preserves_iterM. intros kv _. now apply preserves_removeOld.
Qed.

Lemma preserves_storing (name : string) (Q : State -> Prop) (record : Obj) :
  (forall T st ids params, Q st -> Q (STORE_RELATED T st ids params)) ->
  preserves (module_prop name Q)
    (if truthy (obj_get record "relationships") then
       iterM (fun kv => storeNewRelationship record (fst kv) (snd kv))
         (js_entries (obj_get record "relationships"))
     else retM tt).
Proof.
  intros HQ. destruct (truthy _); [|apply preserves_ret].
  apply preserves_iterM. intros kv _. now apply preserves_storeNew.
Qed.

Lemma related_of_entry (T : string) (st : State) (p : Val) (n : string) (e : Obj)
    (ids : Val) :
  find_first (matches (rel_key (getResourceIdentifier p) n)) st.(related) = Some e ->
  obj_get e "relatedIds" = ids ->
  Getters.related T st (rel_key p n)
  = match ids with
    | VArr l => RMany (somes (map (findRecord st.(records)) l))
    | id => ROne (find_first (fun r => seq id (obj_get r "id")) st.(records))
    end.
Proof.
  intros Hf He. unfold Getters.related. rewrite getRelationshipIndex_key, Hf, He.
  destruct ids; auto. f_equal. apply flat_map_somes.
Qed.

(** ** Paging, filtering and relationship editing *)

Lemma update_module_compose (name : string) (f g : State -> State) (root : Root) :
  update_module name g (update_module name f root)
  = update_module name (fun st => g (f st)) root.
Proof.
  unfold update_module. rewrite map_map. apply map_ext. intros [n st]. simpl.
  destruct (String.eqb n name) eqn:E; simpl; rewrite ?E; reflexivity.
Qed.

(** [handleError] always rethrows, so a caught computation that resolves
    resolved before the handler. *)
Lemma catchM_handleError_ok {A} (name : string) (m : M A) (r r' : Root) (a : A) :
  catchM m (handleError name) r = (r', Ok a) -> m r = (r', Ok a).
Proof.
  unfold catchM. destruct (m r) as [r1 [a'|e]]; [auto|].
  unfold handleError, commitHere, commit, bindM, throwM. discriminate.
Qed.

(** Every property of a module that the two cross-type commits of
    [storeIncluded] keep is kept by [storeIncluded]. *)
Lemma preserves_storeIncluded_prop (name : string) (doc : Doc Data) (Q : State -> Prop) :
  (forall st rec, In rec (incl_list doc) -> Q st -> Q (STORE_RECORD st rec)) ->
  (forall T st ids params, Q st -> Q (STORE_RELATED T st ids params)) ->
  preserves (module_prop name Q) (storeIncluded doc).
Proof.
  intros Hrec Hrel. unfold storeIncluded. revert Hrec. unfold incl_list.
  destruct (included doc) as [inc|]; intros Hrec; [|apply preserves_ret].
  apply preserves_bind.
  - apply preserves_iterM. intros rec Hin. unfold dispatch_storeRecord.
    apply preserves_commit_module. intros st. now apply Hrec.
  - intros _. apply preserves_iterM. intros rec _.
    unfold storeIncludedRecord. destruct (truthy _); [|apply preserves_ret].
    apply preserves_iterM. intros kv _. unfold storeIncludedRelationship.
    apply preserves_bind; [apply preserves_liftRes|]. intros d.
    destruct (_ || _); [apply preserves_ret|].
    apply preserves_bind; [apply preserves_liftRes|]. intros type.
    apply preserves_bind; [apply preserves_liftRes|]. intros ids.
    unfold dispatch_storeRelated. apply preserves_commit_module.
    intros st. apply Hrel.
Qed.

(** [STORE_RECORDS] adds the ids of the new records and keeps the others. *)
Lemma fold_storeRecord_ids (news rs : list Obj) (id : Val) :
  Forall keys_unique news ->
  In id (ids_of (fold_left storeRecord news rs)) <-> In id (ids_of rs) \/ In id (ids_of news).
Proof.
  revert rs. induction news as [|n news IH]; intros rs Hnd; simpl.
  - unfold ids_of at 2. simpl. tauto.
  - inversion Hnd as [|? ? Hn Hnd']; subst.
    rewrite IH by assumption. rewrite storeRecord_ids by assumption.
    unfold ids_of. simpl. intuition congruence.
Qed.

(** A primitive id held by the Entity Store resolves. *)
Lemma findRecord_resolves (rs : list Obj) (id : Val) :
  is_prim id = true -> In id (ids_of rs) -> resolves_to id (findRecord rs id).
Proof.
  intros Hp. induction rs as [|x xs IH]; simpl; [tauto|].
  unfold findRecord. simpl. destruct (seq (obj_get x "id") id) eqn:E.
  - intros _. exists x. split; [reflexivity|]. now apply seq_eq.
  - intros [Hx|Hin].
    + rewrite Hx, seq_refl_prim in E by assumption. discriminate.
    + now apply IH.
Qed.

Lemma resolves_all (st : State) (ids : list Val) :
  Forall (fun id => is_prim id = true) ids -> holds_ids ids st ->
  Forall2 resolves_to ids (map (findRecord st.(records)) ids).
Proof.
  intros Hp Hh. induction ids as [|id ids IH]; simpl; constructor.
  - inversion Hp; subst. apply findRecord_resolves; auto. apply Hh. now left.
  - inversion Hp; subst. apply IH; auto. intros i Hi. apply Hh. now right.
Qed.

(** [storeIncluded] keeps every cached id of every module, and every field
    but the Entity Store and the relationship index. *)
Lemma storeIncluded_keeps (n : string) (doc : Doc Data) (r : Root) (st : State) :
  module_state n r = Some st -> Forall keys_unique (incl_list doc) ->
  exists st', module_state n (fst (storeIncluded doc r)) = Some st' /\
    other_fields st' = other_fields st /\ holds_ids (ids_of st.(records)) st'.
Proof.
  intros Hst Hnd.
  assert (HP : module_prop n (fun s => other_fields s = other_fields st /\
                                      holds_ids (ids_of st.(records)) s) r).
  { exists st. split; [exact Hst|]. split; [reflexivity|]. intros id Hid. exact Hid. }
  apply (preserves_storeIncluded_prop n doc) in HP.
  - destruct HP as (st' & H1 & H2 & H3). eauto.
  - intros s rec Hin [Ho Hh]. split; [exact Ho|].
    intros id Hid. simpl. apply storeRecord_ids.
    + rewrite Forall_forall in Hnd. now apply Hnd.
    + left. now apply Hh.
  - intros T s ids params [Ho Hh]. split; [exact Ho|]. exact Hh.
Qed.

Lemma matches_ext (crit e e' : Obj) :
  (forall k, In k (map fst crit) -> obj_get e k = obj_get e' k) ->
  matches crit e = matches crit e'.
Proof.
  intros H. unfold matches. induction crit as [|[k v] crit IH]; simpl; auto.
  rewrite H by (now left). f_equal. apply IH. intros k' Hk'. apply H. now right.
Qed.

Lemma matches_obj_set_other (crit e : Obj) (k : string) (v : Val) :
  ~ In k (map fst crit) -> matches crit (obj_set e k v) = matches crit e.
Proof.
  intros Hk. apply matches_ext. intros k' Hk'. apply obj_get_set_other.
  intros ->. contradiction.
Qed.

(** The entry pushed for a key [{ [k]: v, ...key }] matches the key when the
    key matches itself. *)
Lemma matches_assign_self (crit : Obj) (k : string) (v : Val) :
  keys_unique crit -> ~ In k (map fst crit) ->
  matches crit (obj_assign [(k, v)] crit) = matches crit crit.
Proof.
  intros Hnd Hk. apply matches_ext. intros k' Hk'.
  apply in_map_iff in Hk' as ([k0 v0] & <- & Hin). simpl.
  unfold obj_get at 1. rewrite (assoc_assign_in _ _ k0 v0) by assumption.
  symmetry. now apply obj_get_In_NoDup.
Qed.

Lemma obj_get_assign_fresh (crit : Obj) (k : string) (v : Val) :
  ~ In k (map fst crit) -> obj_get (obj_assign [(k, v)] crit) k = v.
Proof.
  intros Hk. unfold obj_get. rewrite assoc_assign_notin by assumption.
  simpl. now rewrite String.eqb_refl.
Qed.

(** The key [setRelated] stores under is the key [related(params)] reads. *)
Lemma getRelationshipIndex_setRelated (R : string) (params : Obj) :
  getRelationshipIndex R
    [("parent", obj_get params "parent"); ("relationship", relationshipParam R params)]
  = getRelationshipIndex R params.
Proof.
  unfold getRelationshipIndex, relationshipParam. simpl.
  destruct (obj_get params "relationship"); reflexivity.
Qed.

Lemma loadPage_ok (name : string) (doc : Doc (list Obj)) (root : Root) :
  loadPage name (Ok doc) root
  = catchM (storeIncluded (many_doc doc)) (handleError name)
      (update_module name (fun st => SET_LINKS st doc.(doc_links))
        (update_module name (fun st => STORE_META st doc.(meta))
          (update_module name (fun st => STORE_PAGE st doc.(data))
            (update_module name (fun st => STORE_RECORDS st doc.(data))
              (update_module name (fun st => SET_STATUS st STATUS_SUCCESS)
                (update_module name (fun st => SET_STATUS st STATUS_LOADING) root)))))).
Proof. reflexivity. Qed.

Lemma loadWhere_ok (name : string) (params : Obj) (doc : Doc (list Obj)) (root : Root) :
  loadWhere name params (Ok doc) root
  = catchM (storeIncluded (many_doc doc)) (handleError name)
      (update_module name (fun st => STORE_META st doc.(meta))
        (update_module name
           (fun st => STORE_FILTERED st (VArr (ids_of doc.(data))) params)
          (update_module name (fun st => STORE_RECORDS st doc.(data))
            (update_module name (fun st => SET_STATUS st STATUS_SUCCESS)
              (update_module name (fun st => SET_STATUS st STATUS_LOADING) root))))).
Proof. reflexivity. Qed.

(** A [followLink] that resolves ran its four commits, then [storeIncluded]. *)
Lemma followLink_ok (name linkName : string) all (root root' : Root) (st : State) doc :
  module_state name root = Some st -> all (prop st.(links) linkName) = Ok doc ->
  followLink name linkName all root = (root', Ok tt) ->
  storeIncluded (many_doc doc)
    (update_module name (fun st => STORE_META st doc.(meta))
      (update_module name (fun st => SET_LINKS st doc.(doc_links))
        (update_module name (fun st => STORE_PAGE st doc.(data))
          (update_module name (fun st => STORE_RECORDS st doc.(data)) root))))
  = (root', Ok tt).
Proof.
  intros Hst Hall H. unfold followLink, withState in H. rewrite Hst in H.
  unfold bindM at 1, liftRes, get in H.
  destruct (is_nullish (links st)); [discriminate|].
  unfold retM, thenM in H. rewrite Hall in H. exact H.
Qed.

Lemma truthy_prop_SET_LINKS (l : Val) (k : string) :
  truthy (prop (if truthy l then l else VObj []) k) = truthy l && truthy (prop l k).
Proof. destruct (truthy l); reflexivity. Qed.

(** [mapResourceModules]: keys and values of [Object.assign]. *)
Lemma kv_set_keys {V} (o : list (string * V)) (k k' : string) (v : V) :
  In k' (map fst (kv_set o k v)) <-> In k' (map fst o) \/ k' = k.
Proof.
  induction o as [|[k0 v0] o IH]; simpl.
  - intuition.
  - destruct (String.eqb_spec k k0) as [->|Hne]; simpl; rewrite ?IH; intuition.
Qed.

Lemma kv_set_nodup {V} (o : list (string * V)) (k : string) (v : V) :
  NoDup (map fst o) -> NoDup (map fst (kv_set o k v)).
Proof.
  induction o as [|[k0 v0] o IH]; simpl; intros Hnd.
  - constructor; [simpl; tauto|constructor].
  - inversion Hnd as [|? ? Hk0 Hnd']; subst.
    destruct (String.eqb_spec k k0) as [->|Hne]; simpl; constructor; auto.
    rewrite kv_set_keys. intros [H|H]; [contradiction|congruence].
Qed.

Lemma kv_set_vals {V} (P : V -> Prop) (o : list (string * V)) (k : string) (v : V) :
  (forall kv, In kv o -> P (snd kv)) -> P v -> forall kv, In kv (kv_set o k v) -> P (snd kv).
Proof.
  intros Ho Hv. induction o as [|[k0 v0] o IH]; simpl.
  - intros kv [<-|[]]. exact Hv.
  - destruct (String.eqb k k0); simpl.
    + intros kv [<-|Hin]; [exact Hv|]. apply Ho. now right.
    + intros kv [<-|Hin]; [apply Ho; now left|].
      apply IH; [intros kv' H'; apply Ho; now right|exact Hin].
Qed.

Lemma kv_assign_props {V} (P : V -> Prop) (t s : list (string * V)) :
  NoDup (map fst t) -> (forall kv, In kv t -> P (snd kv)) ->
  (forall kv, In kv s -> P (snd kv)) ->
  NoDup (map fst (kv_assign t s)) /\
  (forall kv, In kv (kv_assign t s) -> P (snd kv)) /\
  (forall k, In k (map fst (kv_assign t s)) <-> In k (map fst t) \/ In k (map fst s)).
Proof.
  unfold kv_assign. revert t. induction s as [|[k v] s IH]; intros t Hnd Ht Hs; simpl.
  - intuition.
  - destruct (IH (kv_set t k v)) as (H1 & H2 & H3).
    + now apply kv_set_nodup.
    + apply kv_set_vals; auto. apply (Hs (k, v)). now left.
    + intros kv Hkv. apply Hs. now right.
    + split; [exact H1|]. split; [exact H2|]. intros k'. rewrite H3, kv_set_keys.
      intuition.
Qed.

Lemma fold_mapResourceModules (names : list string) (acc : Root) :
  NoDup (map fst acc) -> (forall kv, In kv acc -> snd kv = initialState) ->
  let r := fold_left (fun acc name => kv_assign [(name, resourceModule name)] acc) names acc in
  NoDup (map fst r) /\ (forall kv, In kv r -> snd kv = initialState) /\
  (forall k, In k (map fst r) <-> In k (map fst acc) \/ In k names).
Proof.
  revert acc. induction names as [|x names IH]; intros acc Hnd Hv; simpl.
  - intuition.
  - destruct (kv_assign_props (fun s => s = initialState) [(x, resourceModule x)] acc)
      as (H1 & H2 & H3).
    + constructor; [simpl; tauto|constructor].
    + intros kv [<-|[]]. reflexivity.
    + exact Hv.
    + destruct (IH _ H1 H2) as (G1 & G2 & G3). split; [exact G1|]. split; [exact G2|].
      intros k. rewrite G3, H3. simpl. intuition.
Qed.

Lemma module_state_keys (n : string) (root : Root) :
  (forall kv, In kv root -> snd kv = initialState) ->
  (In n (map fst root) -> module_state n root = Some initialState) /\
  (~ In n (map fst root) -> module_state n root = None).
Proof.
  intros Hv. induction root as [|[n0 st] root IH]; simpl; [tauto|].
  destruct IH as [IH1 IH2]; [intros kv Hkv; apply Hv; now right|].
  destruct (String.eqb_spec n0 n) as [->|Hne].
  - split; [|tauto]. intros _. f_equal. apply (Hv (n, st)). now left.
  - split; intros H; [apply IH1|apply IH2]; intuition.
Qed.

(** The entry a find-then-update writes is the one a [find] with the same
    predicate reads back. *)
Lemma find_update_lookup {A} (p : A -> bool) upd fresh xs :
  (forall x, p x = true -> p (upd x) = true) -> p fresh = true ->
  find_first p (find_update p upd fresh xs)
  = Some (match find_first p xs with Some x => upd x | None => fresh end).
Proof.
  intros Hupd Hfresh. induction xs as [|x xs IH]; simpl.
  - now rewrite Hfresh.
  - destruct (p x) eqn:E; simpl.
    + now rewrite (Hupd x E).
    + now rewrite E.
Qed.

Lemma loadById_ok (name : string) (doc : Doc Obj) (root : Root) :
  loadById name (Ok doc) root
  = catchM (storeIncluded (one_doc doc)) (handleError name)
      (update_module name (fun st => STORE_META st doc.(meta))
        (update_module name (fun st => STORE_RECORD st doc.(data))
          (update_module name (fun st => SET_STATUS st STATUS_SUCCESS)
            (update_module name (fun st => SET_STATUS st STATUS_LOADING) root)))).
Proof. reflexivity. Qed.

(** * Claims *)

(** C6: upserting into the Entity Store ([storeRecord], behind
    [STORE_RECORD]) shallow-merges onto the first record with the same id, in
    place, or appends a record with a fresh id; it is a total function (it
    never fails); upserting a record twice equals upserting it once; and
    storing [{id:'1', attributes:{title:'A'}}] then
    [{id:'1', attributes:{title:'B'}}] leaves one record, with title 'B'. *)
Theorem storeRecord_upsert (rs : list Obj) (r : Obj) :
  (forall pre e post,
      rs = pre ++ e :: post ->
      forallb (fun y => negb (seq (obj_get y "id") (obj_get r "id"))) pre = true ->
      seq (obj_get e "id") (obj_get r "id") = true ->
      storeRecord rs r = pre ++ obj_assign e r :: post) /\
  (forallb (fun y => negb (seq (obj_get y "id") (obj_get r "id"))) rs = true ->
      storeRecord rs r = rs ++ [r]) /\
  (is_prim (obj_get r "id") = true -> NoDup (map fst r) ->
      storeRecord (storeRecord rs r) r = storeRecord rs r) /\
  storeRecord
    (storeRecord [] [("id", VStr "1"); ("attributes", VObj [("title", VStr "A")])])
    [("id", VStr "1"); ("attributes", VObj [("title", VStr "B")])]
  = [[("id", VStr "1"); ("attributes", VObj [("title", VStr "B")])]].
Proof.
  split; [|split; [|split]].
  - intros pre e post -> Hpre He. unfold storeRecord.
    exact (find_update_app _ (fun y => obj_assign y r) r pre e post Hpre He).
  - intros H. unfold storeRecord. now apply find_update_none.
  - intros Hprim Hnd. unfold storeRecord.
    destruct (find_split (fun y => seq (obj_get y "id") (obj_get r "id")) rs)
      as [Hnone|(pre & e & post & -> & Hpre & He)].
    + rewrite (find_update_none _ (fun y => obj_assign y r) r rs Hnone).
      rewrite (find_update_app _ (fun y => obj_assign y r) r rs r [])
        by (exact Hnone || (simpl; now apply seq_refl_prim)).
      rewrite obj_assign_noop; auto.
      intros k v Hin. now apply assoc_In_NoDup.
    + rewrite (find_update_app _ (fun y => obj_assign y r) r pre e post Hpre He).
      rewrite (find_update_app _ (fun y => obj_assign y r) r pre (obj_assign e r) post Hpre)
        by (simpl; rewrite storeRecord_merged_id by assumption; now apply seq_refl_prim).
      now rewrite (obj_assign_idem e r Hnd).
  - reflexivity.
Qed.

(** Witness of C6 at a store holding a record with id '1'. *)
Lemma storeRecord_upsert_witness :
  storeRecord
    (storeRecord [[("id", VStr "1"); ("type", VStr "widgets")]]
       [("id", VStr "1"); ("attributes", VObj [("title", VStr "B")])])
    [("id", VStr "1"); ("attributes", VObj [("title", VStr "B")])]
  = storeRecord [[("id", VStr "1"); ("type", VStr "widgets")]]
      [("id", VStr "1"); ("attributes", VObj [("title", VStr "B")])]
  /\ storeRecord [[("id", VStr "1"); ("type", VStr "widgets")]]
       [("id", VStr "1"); ("attributes", VObj [("title", VStr "B")])]
     = [] ++ obj_assign [("id", VStr "1"); ("type", VStr "widgets")]
              [("id", VStr "1"); ("attributes", VObj [("title", VStr "B")])] :: []
  /\ storeRecord [[("id", VStr "1")]] [("id", VStr "2")]
     = [[("id", VStr "1")]] ++ [[("id", VStr "2")]].
Proof.
  destruct (storeRecord_upsert [[("id", VStr "1"); ("type", VStr "widgets")]]
              [("id", VStr "1"); ("attributes", VObj [("title", VStr "B")])])
    as (Hmerge & _ & Hidem & _).
  destruct (storeRecord_upsert [[("id", VStr "1")]] [("id", VStr "2")])
    as (_ & Happ & _ & _).
  split; [|split].
  - apply Hidem; [reflexivity|].
    repeat constructor; simpl; intuition discriminate.
  - apply Hmerge; reflexivity.
  - apply Happ; reflexivity.
Defined.

(** C9: when the transport call of [create], [update] or [delete] rejects
    with [e], the action rejects with the same [e] and the root store, status
    and error included, is exactly as before the call. *)
Theorem write_ops_atomic_on_failure (name : string) (T : Type) (record : Obj)
    (e : Val) (root : Root) :
  create name (Throw e) root = (root, Throw e) /\
  @update name T record (Throw e) root = (root, Throw e) /\
  delete name record (Throw e) root = (root, Throw e).
Proof. repeat split. Qed.

(** C8: after [resetState], for every prior state of the module, the module
    holds the initial state: [all], the page and [related]/[where] lookups
    are empty or never-loaded, links are [{}], status is INITIAL, and error,
    lastMeta and lastCreated are null. *)
Theorem resetState_clears (name : string) (root : Root) (st : State) :
  module_state name root = Some st ->
  snd (resetState name root) = Ok tt /\
  exists st', module_state name (fst (resetState name root)) = Some st' /\
    st' = initialState /\
    Getters.all st' = [] /\
    (forall params, Getters.related name st' params = RNull) /\
    (forall params, Getters.where_ st' params = Ok []) /\
    st'.(page) = [] /\ Getters.page st' = [] /\
    st'.(links) = VObj [] /\
    st'.(status) = STATUS_INITIAL /\
    Getters.error st' = VNull /\ Getters.lastMeta st' = VNull /\
    Getters.lastCreated st' = VNull.
Proof.
  intros Hst. split; [reflexivity|].
  exists initialState. unfold resetState, commitHere, commit. simpl.
  rewrite module_state_update_same, Hst.
  repeat split; reflexivity.
Qed.

(** Witness of C8 at a populated [widgets] module. *)
Lemma resetState_clears_witness :
  snd (resetState "widgets" (shop_root [widget "1"; widget "2"])) = Ok tt /\
  exists st', module_state "widgets" (fst (resetState "widgets"
                 (shop_root [widget "1"; widget "2"]))) = Some st' /\
    st' = initialState /\
    Getters.all st' = [] /\
    (forall params, Getters.related "widgets" st' params = RNull) /\
    (forall params, Getters.where_ st' params = Ok []) /\
    st'.(page) = [] /\ Getters.page st' = [] /\
    st'.(links) = VObj [] /\
    st'.(status) = STATUS_INITIAL /\
    Getters.error st' = VNull /\ Getters.lastMeta st' = VNull /\
    Getters.lastCreated st' = VNull.
Proof.
  apply (resetState_clears "widgets" (shop_root [widget "1"; widget "2"])
           (set_records initialState [widget "1"; widget "2"])).
  reflexivity.
Defined.

(** C7: a [related] lookup with no relationship-index entry for its
    (parent, relationship) key returns null, not an empty list and not an
    error; a [where] lookup with no filter-index entry returns the empty
    list. *)
Theorem never_queried_lookups (name : string) (st : State) (params : Obj) :
  ((forall e, In e st.(related) ->
      matches (getRelationshipIndex name params) e = false) ->
   Getters.related name st params = RNull) /\
  ((forall e, In e st.(filtered) -> matches params e = false) ->
   Getters.where_ st params = Ok []).
Proof.
  split; intros H.
  - unfold Getters.related. now rewrite find_first_none.
  - unfold Getters.where_. now rewrite find_first_none.
Qed.

(** Witness of C7 at a module whose indexes hold another key. *)
Lemma never_queried_lookups_witness :
  Getters.related "widgets"
    (STORE_FILTERED
       (STORE_RELATED "widgets" initialState (VArr [VStr "1"])
          (rel_key user42 "purchased-widgets"))
       (VArr [VStr "1"]) [("filter", VObj [("color", VStr "red")])])
    (rel_key user42 "favorite-widgets") = RNull /\
  Getters.where_
    (STORE_FILTERED
       (STORE_RELATED "widgets" initialState (VArr [VStr "1"])
          (rel_key user42 "purchased-widgets"))
       (VArr [VStr "1"]) [("filter", VObj [("color", VStr "red")])])
    [("filter", VObj [("color", VStr "blue")])] = Ok [].
Proof.
  destruct (never_queried_lookups "widgets"
    (STORE_FILTERED
       (STORE_RELATED "widgets" initialState (VArr [VStr "1"])
          (rel_key user42 "purchased-widgets"))
       (VArr [VStr "1"]) [("filter", VObj [("color", VStr "red")])])
    (rel_key user42 "favorite-widgets")) as [H1 _].
  destruct (never_queried_lookups "widgets"
    (STORE_FILTERED
       (STORE_RELATED "widgets" initialState (VArr [VStr "1"])
          (rel_key user42 "purchased-widgets"))
       (VArr [VStr "1"]) [("filter", VObj [("color", VStr "red")])])
    [("filter", VObj [("color", VStr "blue")])]) as [_ H2].
  split.
  - apply H1. simpl. intros e [<-|[]]. reflexivity.
  - apply H2. simpl. intros e [<-|[]]. reflexivity.
Defined.

(** C10: [where] maps every id of the filter-index entry to its record, so
    the result is as long as [matchedIds] and an id that no longer resolves
    leaves [undefined] at its position. *)
Theorem where_keeps_dangling (st : State) (params entry : Obj) (ids : list Val) :
  find_first (matches params) st.(filtered) = Some entry ->
  obj_get entry "matchedIds" = VArr ids ->
  exists res, Getters.where_ st params = Ok res /\
    length res = length ids /\
    (forall i id, nth_error ids i = Some id ->
       nth_error res i = Some (findRecord st.(records) id)) /\
    (forall i id, nth_error ids i = Some id ->
       findRecord st.(records) id = None -> nth_error res i = Some None).
Proof.
  intros Hf Hm. exists (map (findRecord st.(records)) ids).
  unfold Getters.where_. rewrite Hf, Hm.
  split; [reflexivity|]. split; [apply length_map|].
  assert (Hn : forall i id, nth_error ids i = Some id ->
            nth_error (map (findRecord st.(records)) ids) i
            = Some (findRecord st.(records) id)).
  { intros i id Hi. now rewrite nth_error_map, Hi. }
  split; [exact Hn|]. intros i id Hi Hnone. rewrite <- Hnone. now apply Hn.
Qed.

(** Witness of C10: widget 2 was deleted after the filtered load. *)
Lemma where_keeps_dangling_witness :
  exists res, Getters.where_
      (REMOVE_RECORD
         (STORE_FILTERED (set_records initialState [widget "1"; widget "2"])
            (VArr [VStr "1"; VStr "2"]) [("filter", VObj [("color", VStr "red")])])
         (widget "2"))
      [("filter", VObj [("color", VStr "red")])] = Ok res /\
    length res = length [VStr "1"; VStr "2"] /\
    (forall i id, nth_error [VStr "1"; VStr "2"] i = Some id ->
       nth_error res i = Some (findRecord [widget "1"] id)) /\
    (forall i id, nth_error [VStr "1"; VStr "2"] i = Some id ->
       findRecord [widget "1"] id = None -> nth_error res i = Some None).
Proof.
  apply (where_keeps_dangling
           (REMOVE_RECORD
              (STORE_FILTERED (set_records initialState [widget "1"; widget "2"])
                 (VArr [VStr "1"; VStr "2"]) [("filter", VObj [("color", VStr "red")])])
              (widget "2"))
           [("filter", VObj [("color", VStr "red")])]
           [("matchedIds", VArr [VStr "1"; VStr "2"]);
            ("filter", VObj [("color", VStr "red")])]
           [VStr "1"; VStr "2"]); reflexivity.
Defined.

(** C2: for a relationship-index entry whose [relatedIds] is a list,
    [related] returns the stored records of those ids in the order of
    [relatedIds], dropping the ids with no stored record; and storing
    [['27','42']] under [{parent: user 42, relationship: 'purchased-widgets'}]
    makes [related] return the stored widgets 27 and 42, in that order. *)
Theorem related_resolves_in_order :
  (forall (name : string) (st : State) (params rel : Obj) (ids : list Val),
     find_first (matches (getRelationshipIndex name params)) st.(related) = Some rel ->
     obj_get rel "relatedIds" = VArr ids ->
     Getters.related name st params
     = RMany (somes (map (findRecord st.(records)) ids))) /\
  (forall (name : string) (root : Root) (st : State),
     module_state name root = Some st ->
     exists st',
       module_state name (fst (storeRelated name (VArr [VStr "27"; VStr "42"])
                                (rel_key user42 "purchased-widgets") root)) = Some st' /\
       st'.(records) = st.(records) /\
       Getters.related name st' (rel_key user42 "purchased-widgets")
       = RMany (somes [findRecord st.(records) (VStr "27");
                       findRecord st.(records) (VStr "42")])).
Proof.
  split.
  - intros name st params rel ids Hf Hr. unfold Getters.related.
    rewrite Hf, Hr. f_equal. apply flat_map_somes.
  - intros name root st Hst.
    unfold storeRelated, commitHere, commit. simpl.
    rewrite module_state_update_same, Hst. simpl.
    eexists; split; [reflexivity|]. split; [reflexivity|].
    destruct (STORE_RELATED_found name st (VArr [VStr "27"; VStr "42"])
                (rel_key user42 "purchased-widgets") (getResourceIdentifier user42)
                "purchased-widgets" eq_refl) as (e & Hf & Hr).
    + exists (VStr "users"), (VStr "42"). auto.
    + unfold Getters.related. rewrite getRelationshipIndex_key.
      rewrite Hf, Hr. f_equal. exact (flat_map_somes _ _).
Qed.

(** Witness of C2: widget 27 is stored and widget 42 is not. *)
Lemma related_resolves_in_order_witness :
  Getters.related "widgets"
    (STORE_RELATED "widgets" (set_records initialState [widget "42"; widget "27"])
       (VArr [VStr "27"; VStr "5"; VStr "42"]) (rel_key user42 "purchased-widgets"))
    (rel_key user42 "purchased-widgets")
  = RMany (somes (map (findRecord [widget "42"; widget "27"])
                    [VStr "27"; VStr "5"; VStr "42"])) /\
  exists st',
    module_state "widgets" (fst (storeRelated "widgets" (VArr [VStr "27"; VStr "42"])
                             (rel_key user42 "purchased-widgets")
                             (shop_root [widget "42"; widget "27"]))) = Some st' /\
    st'.(records) = [widget "42"; widget "27"] /\
    Getters.related "widgets" st' (rel_key user42 "purchased-widgets")
    = RMany (somes [findRecord [widget "42"; widget "27"] (VStr "27");
                    findRecord [widget "42"; widget "27"] (VStr "42")]).
Proof.
  destruct related_resolves_in_order as [H1 H2]. split.
  - apply (H1 "widgets"
             (STORE_RELATED "widgets" (set_records initialState [widget "42"; widget "27"])
                (VArr [VStr "27"; VStr "5"; VStr "42"]) (rel_key user42 "purchased-widgets"))
             (rel_key user42 "purchased-widgets")
             [("relatedIds", VArr [VStr "27"; VStr "5"; VStr "42"]);
              ("parent", user42); ("relationship", VStr "purchased-widgets")]);
      reflexivity.
  - apply (H2 "widgets" (shop_root [widget "42"; widget "27"])
             (set_records initialState [widget "42"; widget "27"])).
    reflexivity.
Defined.

(** C5: when the transport call of [loadAll], [loadById], [loadWhere],
    [loadPage] or [loadRelated] rejects with [e], the action rejects with the
    same [e], the status is ERROR (not loading, in error) and the [error]
    getter returns [e]. *)
Theorem load_failure_sets_error (name : string) (root : Root) (st : State)
    (e : Val) (params : Obj) :
  module_state name root = Some st ->
  load_rejected name e (loadAll name (Throw e) root) /\
  load_rejected name e (loadById name (Throw e) root) /\
  load_rejected name e (loadWhere name params (Throw e) root) /\
  load_rejected name e (loadPage name (Throw e) root) /\
  load_rejected name e (loadRelated name params (Throw e) root).
Proof.
  intros Hst.
  assert (H : load_rejected name e
                (handleError name e
                   (update_module name (fun st => SET_STATUS st STATUS_LOADING) root)
                 : Root * Res unit)).
  { unfold handleError, commitHere, commit, load_rejected. simpl.
    split; [reflexivity|].
    rewrite !module_state_update_same, Hst. simpl.
    eexists; split; [reflexivity|]. repeat split. }
  repeat split; try exact (proj1 H); exact (proj2 H).
Qed.

(** Witness of C5 at the [widgets] module. *)
Lemma load_failure_sets_error_witness :
  load_rejected "widgets" (VStr "boom") (loadAll "widgets" (Throw (VStr "boom"))
                                          (shop_root [widget "1"])) /\
  load_rejected "widgets" (VStr "boom") (loadById "widgets" (Throw (VStr "boom"))
                                          (shop_root [widget "1"])) /\
  load_rejected "widgets" (VStr "boom")
    (loadWhere "widgets" [("parent", user42)] (Throw (VStr "boom"))
       (shop_root [widget "1"])) /\
  load_rejected "widgets" (VStr "boom") (loadPage "widgets" (Throw (VStr "boom"))
                                          (shop_root [widget "1"])) /\
  load_rejected "widgets" (VStr "boom")
    (loadRelated "widgets" [("parent", user42)] (Throw (VStr "boom"))
       (shop_root [widget "1"])).
Proof.
  apply (load_failure_sets_error "widgets" (shop_root [widget "1"])
           (set_records initialState [widget "1"]) (VStr "boom")
           [("parent", user42)]).
  reflexivity.
Defined.

(** C4: a successful [loadAll] replaces the Entity Store with the response:
    every id of the response data is stored, every stored id comes from the
    response (its data or its included records), so an id stored before and
    absent from the response is evicted; without included records the store
    is exactly the response data; and after [loadAll] returning ids ['1','3']
    following one returning ['1','2'], [all] holds exactly ids ['1','3']. *)
Theorem loadAll_replaces_records :
  (forall (name : string) (root : Root) (st : State) (doc : Doc (list Obj)),
     module_state name root = Some st ->
     Forall (fun r => NoDup (map fst r)) (incl_list doc) ->
     snd (loadAll name (Ok doc) root) = Ok tt ->
     exists st', module_state name (fst (loadAll name (Ok doc) root)) = Some st' /\
       (forall id, In id (ids_of doc.(data)) -> In id (ids_of (Getters.all st'))) /\
       (forall id, In id (ids_of (Getters.all st')) ->
          In id (ids_of (app doc.(data) (incl_list doc)))) /\
       (forall id, In id (ids_of st.(records)) ->
          ~ In id (ids_of (app doc.(data) (incl_list doc))) ->
          ~ In id (ids_of (Getters.all st'))) /\
       (doc.(included) = None -> Getters.all st' = doc.(data))) /\
  option_map (fun st => ids_of (Getters.all st))
    (module_state "widgets"
       (fst (loadAll "widgets" (Ok (mkDoc [widget "1"; widget "3"] None VNull VNull))
          (fst (loadAll "widgets" (Ok (mkDoc [widget "1"; widget "2"] None VNull VNull))
             (shop_root []))))))
  = Some [VStr "1"; VStr "3"].
Proof.
  split; [|reflexivity].
  intros name root st doc Hst Hnd Hok.
  rewrite loadAll_ok in *.
  set (r4 := update_module name (fun st => STORE_META st doc.(meta))
        (update_module name (fun st => REPLACE_ALL_RECORDS st doc.(data))
          (update_module name (fun st => SET_STATUS st STATUS_SUCCESS)
            (update_module name (fun st => SET_STATUS st STATUS_LOADING) root)))) in *.
  assert (Hr4 : module_state name r4
                = Some (STORE_META (REPLACE_ALL_RECORDS
                          (SET_STATUS (SET_STATUS st STATUS_LOADING) STATUS_SUCCESS)
                          doc.(data)) doc.(meta))).
  { unfold r4. now rewrite !module_state_update_same, Hst. }
  assert (Hinv : store_ids_between name doc.(data) (incl_list doc) r4).
  { eexists; split; [exact Hr4|]. simpl. split; auto.
    intros id Hid. unfold ids_of. rewrite map_app. apply in_or_app. now left. }
  pose proof (preserves_storeIncluded name (many_doc doc) doc.(data) Hnd r4 Hinv)
    as Hpost.
  unfold catchM in *. destruct (storeIncluded (many_doc doc) r4) as [r' [u|e]] eqn:E.
  - simpl in *. destruct Hpost as (st' & Hst' & H1 & H2).
    exists st'. split; [exact Hst'|]. split; [exact H1|]. split; [exact H2|].
    split.
    + intros id _ Hn Hin. exact (Hn (H2 id Hin)).
    + intros Hnone. unfold storeIncluded in E. simpl in E. rewrite Hnone in E.
      injection E as <-. rewrite Hr4 in Hst'. injection Hst' as <-. reflexivity.
  - cbv [handleError bindM commitHere commit throwM] in Hok. discriminate.
Qed.

(** Witness of C4: widget 2 is evicted, widget 4 comes in as an included
    record. *)
Lemma loadAll_replaces_records_witness :
  exists st', module_state "widgets"
      (fst (loadAll "widgets"
              (Ok (mkDoc [widget "1"; widget "3"] (Some [widget "4"]) VNull VNull))
              (shop_root [widget "1"; widget "2"]))) = Some st' /\
    (forall id, In id (ids_of [widget "1"; widget "3"]) -> In id (ids_of (Getters.all st'))) /\
    (forall id, In id (ids_of (Getters.all st')) ->
       In id (ids_of (app [widget "1"; widget "3"] [widget "4"]))) /\
    (forall id, In id (ids_of [widget "1"; widget "2"]) ->
       ~ In id (ids_of (app [widget "1"; widget "3"] [widget "4"])) ->
       ~ In id (ids_of (Getters.all st'))) /\
    (Some [widget "4"] = None -> Getters.all st' = [widget "1"; widget "3"]).
Proof.
  destruct loadAll_replaces_records as [H _].
  apply (H "widgets" (shop_root [widget "1"; widget "2"])
           (set_records initialState [widget "1"; widget "2"])
           (mkDoc [widget "1"; widget "3"] (Some [widget "4"]) VNull VNull)).
  - reflexivity.
  - repeat constructor; simpl; intuition discriminate.
  - reflexivity.
Defined.

(** Counterexample to C3: updating dish 1 from comments [[5]] to comments
    [[]] succeeds, yet the new, empty relationship is not stored: the entry
    keeps the [relatedIds = null] of the removal loop, so [related] returns
    [undefined], where storing the new relationship would return [[]]. *)
Lemma update_emptied_relationship_not_restored :
  update "dishes" (dish_with_comments []) (Ok tt) kitchen_root = (kitchen_after, Ok tt) /\
  exists st', module_state "comments" kitchen_after = Some st' /\
    Getters.related "comments" st' (rel_key (VObj (dish_with_comments [])) "comments")
    = ROne None /\
    Getters.related "comments"
      (STORE_RELATED "comments" st' (VArr [])
         (rel_key (VObj (dish_with_comments [])) "comments"))
      (rel_key (VObj (dish_with_comments [])) "comments")
    = RMany [].
Proof.
  split; [vm_compute; reflexivity|].
  eexists; split; [vm_compute; reflexivity|]. split; vm_compute; reflexivity.
Qed.

(** C3 (amended): after a successful [update(record)]: the Entity Store
    holds [record] shallow-merged onto its cached entry; a relationship of
    [record] whose data is a non-empty array or an object with truthy [type]
    and [id] is stored under (record, relationship) in the module of its
    type, so [related] resolves its new ids; a relationship of the old cached
    version that [record] drops or gives with data [null] or [[]] keeps the
    [relatedIds = null] the removal loop wrote, so [related] reads
    [records.find(r => null === r.id)], [undefined] in a store without
    null ids; and updating a dish's to-one [restaurant] from '2' to '3' makes
    [related] return restaurant 3. *)
Theorem update_rederives_relationships :
  (forall (R T n : string) (root root' : Root) (stR stT : State) (u : unit)
          (record : Obj) (Lnew : list (string * Val)) (relObj d ids : Val),
     module_state R root = Some stR -> module_state T root = Some stT ->
     simple_ident (getResourceIdentifier (VObj record)) ->
     obj_get record "relationships" = VObj Lnew -> NoDup (map fst Lnew) ->
     In (n, relObj) Lnew ->
     get relObj "data" = Ok d -> isNonEmptyArray d || isObject d = true ->
     getRelationshipType relObj = Ok (VStr T) -> relatedIdsOf d = Ok ids ->
     update R record (Ok u) root = (root', Ok tt) ->
     (exists stR', module_state R root' = Some stR' /\
        stR'.(records) = storeRecord stR.(records) record) /\
     exists stT', module_state T root' = Some stT' /\
       entry_is (rel_key (getResourceIdentifier (VObj record)) n) ids stT' /\
       Getters.related T stT' (rel_key (VObj record) n)
       = match ids with
         | VArr l => RMany (somes (map (findRecord stT'.(records)) l))
         | id => ROne (find_first (fun r => seq id (obj_get r "id")) stT'.(records))
         end) /\
  (forall (R T n : string) (root root' : Root) (stR stT : State) (u : unit)
          (record old : Obj) (Lold : list (string * Val)) (entOld : Val),
     module_state R root = Some stR -> module_state T root = Some stT ->
     Getters.byId stR (obj_get record "id") = Some old ->
     getResourceIdentifier (VObj old) = getResourceIdentifier (VObj record) ->
     simple_ident (getResourceIdentifier (VObj record)) ->
     obj_get old "relationships" = VObj Lold -> NoDup (map fst Lold) ->
     In (n, entOld) Lold -> getRelationshipType entOld = Ok (VStr T) ->
     (forall relObj, In (n, relObj) (js_entries (obj_get record "relationships")) ->
        exists d, get relObj "data" = Ok d /\ isNonEmptyArray d || isObject d = false) ->
     update R record (Ok u) root = (root', Ok tt) ->
     exists stT', module_state T root' = Some stT' /\
       entry_is (rel_key (getResourceIdentifier (VObj record)) n) VNull stT' /\
       Getters.related T stT' (rel_key (VObj record) n)
       = ROne (find_first (fun r => seq VNull (obj_get r "id")) stT'.(records))) /\
  (update "dishes" (dish_with_restaurant "3") (Ok tt) diner_root = (diner_after, Ok tt) /\
   exists st', module_state "restaurants" diner_after = Some st' /\
     Getters.related "restaurants" st' (rel_key (VObj (dish_with_restaurant "3")) "restaurant")
     = ROne (Some (restaurant "3"))).
Proof.
  split; [|split].
  - intros R T n root root' stR stT u record Lnew relObj d ids
      HR HT Hid Hrels Hnd Hin Hd Hc Hty Hids Hupd.
    destruct (update_ok _ _ _ _ _ Hupd) as (r1 & H1 & H2).
    split.
    + assert (HR1 : module_prop R (fun st => st.(records) = stR.(records)) r1).
      { pose proof (preserves_removal R (fun st => st.(records) = stR.(records)) R
                      record root (fun _ _ _ _ H => H) root) as P.
        rewrite H1 in P. apply P. now exists stR. }
      destruct HR1 as (s & Hs & Hsr).
      pose proof (preserves_storing R
                    (fun st => st.(records) = storeRecord stR.(records) record) record
                    (fun _ _ _ _ H => H)
                    (update_module R (fun st => STORE_RECORD st record) r1)) as P.
      rewrite H2 in P. apply P.
      exists (STORE_RECORD s record). rewrite module_state_update_same, Hs.
      split; [reflexivity|]. simpl. now rewrite Hsr.
    + assert (HT1 : module_prop T (fun _ => True) r1).
      { pose proof (preserves_removal T (fun _ => True) R record root
                      (fun _ _ _ _ H => H) root) as P.
        rewrite H1 in P. apply P. now exists stT. }
      pose proof (preserves_commit_module T R (fun _ => True)
                    (fun st => STORE_RECORD st record) (fun _ H => H) r1 HT1) as HT2.
      simpl in HT2.
      rewrite Hrels in H2. cbn [truthy js_entries] in H2.
      destruct (In_split_NoDup n relObj Lnew Hin Hnd) as (pre & post & -> & Hpost).
      apply iterM_split_ok in H2 as (r3 & r4 & H3 & H4 & H5).
      assert (HT3 : module_prop T (fun _ => True) r3).
      { pose proof (preserves_iterM (module_prop T (fun _ => True))
          (fun kv => storeNewRelationship record (fst kv) (snd kv)) pre
          (fun kv _ => preserves_storeNew T (fun _ => True) record (fst kv) (snd kv)
                         (fun _ _ _ _ H => H)) _ HT2) as P.
        now rewrite H3 in P. }
      cbn beta in H4.
      pose proof (storeNew_establishes T record n relObj d ids r3 r4
                    Hd Hc Hty Hids Hid HT3 H4) as HT4.
      assert (HT5 : module_prop T
                (entry_is (rel_key (getResourceIdentifier (VObj record)) n) ids) root').
      { pose proof (preserves_iterM
          (module_prop T (entry_is (rel_key (getResourceIdentifier (VObj record)) n) ids))
          (fun kv => storeNewRelationship record (fst kv) (snd kv)) post) as P.
        change root' with (fst (root', @Ok unit tt)). rewrite <- H5.
        apply P; [|exact HT4].
        intros [k o] Hko. apply preserves_storeNew_frame. exact (Hpost k o Hko). }
      destruct HT5 as (stT' & HT' & Hent). exists stT'.
      split; [exact HT'|]. split; [exact Hent|].
      destruct Hent as (e & Hf & He). exact (related_of_entry T stT' _ n e ids Hf He).
  - intros R T n root root' stR stT u record old Lold entOld
      HR HT Hby Hsame Hid Hrels Hnd Hin Hty Hskip Hupd.
    destruct (update_ok _ _ _ _ _ Hupd) as (r1 & H1 & H2).
    assert (Hb : byIdHere R (obj_get record "id") root = Some old).
    { unfold byIdHere. now rewrite HR. }
    rewrite Hb, Hrels in H1. cbn [truthy js_entries] in H1.
    destruct (In_split_NoDup n entOld Lold Hin Hnd) as (pre & post & -> & Hpost).
    apply iterM_split_ok in H1 as (ra & rb & Ha & Hrb & Hr1).
    assert (HTa : module_prop T (fun _ => True) ra).
    { pose proof (preserves_iterM (module_prop T (fun _ => True))
        (fun kv => removeOldRelationship old (fst kv) (snd kv)) pre
        (fun kv _ => preserves_removeOld T (fun _ => True) old (fst kv) (snd kv)
                       (fun _ _ _ _ H => H)) _ (ex_intro _ stT (conj HT I))) as P.
      now rewrite Ha in P. }
    cbn beta in Hrb.
    rewrite <- Hsame in Hid.
    pose proof (removeOld_establishes T old n entOld ra rb Hty Hid HTa Hrb) as HTb.
    rewrite Hsame in HTb.
    set (K := rel_key (getResourceIdentifier (VObj record)) n) in *.
    assert (HT1 : module_prop T (entry_is K VNull) r1).
    { pose proof (preserves_iterM (module_prop T (entry_is K VNull))
        (fun kv => removeOldRelationship old (fst kv) (snd kv)) post) as P.
      change r1 with (fst (r1, @Ok unit tt)). rewrite <- Hr1.
      apply P; [|exact HTb].
      intros [k o] Hko. apply preserves_removeOld_frame. exact (Hpost k o Hko). }
    pose proof (preserves_commit_module T R (entry_is K VNull)
                  (fun st => STORE_RECORD st record) (fun _ H => H) r1 HT1) as HT2.
    simpl in HT2.
    assert (HT3 : module_prop T (entry_is K VNull) root').
    { change root' with (fst (root', @Ok unit tt)). rewrite <- H2.
      destruct (truthy (obj_get record "relationships")); [|exact HT2].
      apply preserves_iterM; [|exact HT2].
      intros [k o] Hko. destruct (String.eqb_spec k n) as [->|Hne].
      - destruct (Hskip o Hko) as (d & Hd & Hc).
        intros r Hr. cbn [fst snd]. now rewrite (storeNew_skip record n o d r Hd Hc).
      - now apply preserves_storeNew_frame. }
    destruct HT3 as (stT' & HT' & Hent). exists stT'.
    split; [exact HT'|]. split; [exact Hent|].
    destruct Hent as (e & Hf & He). exact (related_of_entry T stT' _ n e VNull Hf He).
  - split; [vm_compute; reflexivity|].
    eexists; split; [vm_compute; reflexivity|]. vm_compute. reflexivity.
Qed.

(** Witness of C3: dish 1's restaurant moves from '2' to '3', and dish 1's
    comments are emptied. *)
Lemma update_rederives_relationships_witness :
  ((exists stR', module_state "dishes" diner_after = Some stR' /\
      stR'.(records) = storeRecord [dish_with_restaurant "2"] (dish_with_restaurant "3")) /\
   exists stT', module_state "restaurants" diner_after = Some stT' /\
     entry_is (rel_key (getResourceIdentifier (VObj (dish_with_restaurant "3"))) "restaurant")
       (VStr "3") stT' /\
     Getters.related "restaurants" stT' (rel_key (VObj (dish_with_restaurant "3")) "restaurant")
     = ROne (find_first (fun r => seq (VStr "3") (obj_get r "id")) stT'.(records))) /\
  (exists stT', module_state "comments" kitchen_after = Some stT' /\
     entry_is (rel_key (getResourceIdentifier (VObj (dish_with_comments []))) "comments")
       VNull stT' /\
     Getters.related "comments" stT' (rel_key (VObj (dish_with_comments [])) "comments")
     = ROne (find_first (fun r => seq VNull (obj_get r "id")) stT'.(records))).
Proof.
  destruct update_rederives_relationships as (HA & HB & _). split.
  - apply (HA "dishes" "restaurants" "restaurant" diner_root diner_after
             (set_records initialState [dish_with_restaurant "2"])
             (STORE_RELATED "restaurants"
                (set_records initialState [restaurant "2"; restaurant "3"])
                (VStr "2") (rel_key (VObj (dish_with_restaurant "2")) "restaurant"))
             tt (dish_with_restaurant "3")
             [("restaurant",
                VObj [("data", VObj [("type", VStr "restaurants"); ("id", VStr "3")])])]
             (VObj [("data", VObj [("type", VStr "restaurants"); ("id", VStr "3")])])
             (VObj [("type", VStr "restaurants"); ("id", VStr "3")])
             (VStr "3")).
    + reflexivity.
    + reflexivity.
    + exists (VStr "dishes"), (VStr "1"). repeat split.
    + reflexivity.
    + constructor; [simpl; tauto|constructor].
    + left. reflexivity.
    + reflexivity.
    + reflexivity.
    + reflexivity.
    + reflexivity.
    + vm_compute. reflexivity.
  - apply (HB "dishes" "comments" "comments" kitchen_root kitchen_after
             (set_records initialState [dish_with_comments [comment "5"]])
             (STORE_RELATED "comments"
                (set_records initialState [[("type", VStr "comments"); ("id", VStr "5")]])
                (VArr [VStr "5"])
                (rel_key (VObj (dish_with_comments [comment "5"])) "comments"))
             tt (dish_with_comments []) (dish_with_comments [comment "5"])
             [("comments", VObj [("data", VArr [comment "5"])])]
             (VObj [("data", VArr [comment "5"])])).
    + reflexivity.
    + reflexivity.
    + reflexivity.
    + reflexivity.
    + exists (VStr "dishes"), (VStr "1"). repeat split.
    + reflexivity.
    + constructor; [simpl; tauto|constructor].
    + left. reflexivity.
    + reflexivity.
    + simpl. intros relObj [H|[]]. injection H as <-.
      exists (VArr []). split; reflexivity.
    + vm_compute. reflexivity.
Defined.

(** Counterexample to C1: loading post 1, whose to-one [author] relationship
    has [data: null], as a compound document succeeds and records no
    relationship-index entry in any module, so [related] for
    (post 1, 'author') still reads null ("never loaded"). *)
Lemma storeIncluded_null_to_one_not_recorded :
  loadById "posts" (Ok (mkDoc post_with_null_author (Some []) VNull VNull)) blog_root
  = (blog_after, Ok tt) /\
  exists st_p st_u, blog_after = [("posts", st_p); ("users", st_u)] /\
    st_p.(related) = [] /\ st_u.(related) = [] /\
    Getters.related "users" st_u (rel_key (VObj post_with_null_author) "author") = RNull.
Proof.
  split; [vm_compute; reflexivity|].
  do 2 eexists. split; [vm_compute; reflexivity|].
  repeat split; vm_compute; reflexivity.
Qed.

(** C1 (amended): during compound-document resolution a relationship whose
    [data] is null (or otherwise falsy) or an empty array is skipped: nothing
    is dispatched and the root store is left as it was, so no
    relationship-index entry is recorded for it and a later [related] read
    for that (parent, relationship) pair is unaffected (null if it was never
    loaded). *)
Theorem storeIncluded_skips_empty_relationship (primaryRecord : Obj) (n : string)
    (rel d : Val) (root : Root) :
  get rel "data" = Ok d -> truthy d = false \/ d = VArr [] ->
  storeIncludedRelationship primaryRecord n rel root = (root, Ok tt).
Proof.
  intros Hd Hc. unfold storeIncludedRelationship, bindM, liftRes.
  rewrite Hd. unfold retM. lazy beta iota.
  destruct Hc as [Hf| ->]; [rewrite Hf|]; reflexivity.
Qed.

(** Witness of C1: the [author] relationship of post 1. *)
Lemma storeIncluded_skips_empty_relationship_witness :
  storeIncludedRelationship post_with_null_author "author" (VObj [("data", VNull)])
    blog_root = (blog_root, Ok tt).
Proof.
  apply (storeIncluded_skips_empty_relationship post_with_null_author "author"
           (VObj [("data", VNull)]) VNull blog_root).
  - reflexivity.
  - left. reflexivity.
Defined.

(** * Further properties of the module *)

(** [removeRecord] (and [delete] once its transport call resolved) drops
    every cached record whose id is [===] the given record's id, keeps every
    other record, and changes nothing else in the store. *)
Theorem removeRecord_drops_id (R : string) (record : Obj) (u : unit) (root : Root)
    (st : State) :
  module_state R root = Some st ->
  delete R record (Ok u) root = removeRecord R record root /\
  snd (removeRecord R record root) = Ok tt /\
  exists st', module_state R (fst (removeRecord R record root)) = Some st' /\
    findRecord st'.(records) (obj_get record "id") = None /\
    (forall x, In x st'.(records) <->
       In x st.(records) /\ seq (obj_get x "id") (obj_get record "id") = false) /\
    st'.(related) = st.(related) /\ other_fields st' = other_fields st /\
    (forall n, n <> R -> module_state n (fst (removeRecord R record root))
                         = module_state n root).
Proof.
  intros Hst. split; [reflexivity|]. split; [reflexivity|].
  exists (REMOVE_RECORD st record). unfold removeRecord, commitHere, commit. simpl.
  rewrite module_state_update_same, Hst. split; [reflexivity|].
  split; [|split; [|split; [reflexivity|split; [reflexivity|]]]].
  - unfold findRecord. apply find_first_none. intros x Hx. simpl in Hx.
    apply filter_In in Hx as [_ Hx]. now apply negb_true_iff.
  - intros x. simpl. rewrite filter_In. now rewrite negb_true_iff.
  - intros n Hn. apply module_state_update_other. congruence.
Qed.

(** Witness: widget 2 is deleted from a store holding widgets 1 and 2. *)
Lemma removeRecord_drops_id_witness :
  delete "widgets" (widget "2") (Ok tt) (shop_root [widget "1"; widget "2"])
  = removeRecord "widgets" (widget "2") (shop_root [widget "1"; widget "2"]) /\
  snd (removeRecord "widgets" (widget "2") (shop_root [widget "1"; widget "2"])) = Ok tt /\
  exists st', module_state "widgets"
      (fst (removeRecord "widgets" (widget "2") (shop_root [widget "1"; widget "2"])))
      = Some st' /\
    findRecord st'.(records) (obj_get (widget "2") "id") = None /\
    (forall x, In x st'.(records) <->
       In x [widget "1"; widget "2"] /\
       seq (obj_get x "id") (obj_get (widget "2") "id") = false) /\
    st'.(related) = [] /\
    other_fields st' = other_fields (set_records initialState [widget "1"; widget "2"]) /\
    (forall n, n <> "widgets" ->
       module_state n (fst (removeRecord "widgets" (widget "2")
                              (shop_root [widget "1"; widget "2"])))
       = module_state n (shop_root [widget "1"; widget "2"])).
Proof.
  apply (removeRecord_drops_id "widgets" (widget "2") tt (shop_root [widget "1"; widget "2"])
           (set_records initialState [widget "1"; widget "2"])).
  reflexivity.
Defined.


(** A resolved [create] caches the server's record: looking its id up finds
    a record holding each of the server's fields, and [lastCreated] is the
    server's record. *)
Theorem create_caches_record (R : string) (doc : Doc Obj) (root : Root) (st : State) :
  module_state R root = Some st -> keys_unique doc.(data) ->
  is_prim (obj_get doc.(data) "id") = true ->
  snd (create R (Ok doc) root) = Ok tt /\
  exists st', module_state R (fst (create R (Ok doc) root)) = Some st' /\
    Getters.lastCreated st' = VObj doc.(data) /\
    exists rec, findRecord st'.(records) (obj_get doc.(data) "id") = Some rec /\
      forall k, In k (map fst doc.(data)) -> obj_get rec k = obj_get doc.(data) k.
Proof.
  intros Hst Hnd Hp. split; [reflexivity|].
  set (d := doc.(data)) in *.
  exists (STORE_LAST_CREATED (STORE_RECORD st d) (VObj d)).
  unfold create, thenM, commitHere, commit, bindM. simpl.
  rewrite module_state_update_same, module_state_update_same, Hst.
  split; [reflexivity|]. split; [reflexivity|].
  simpl. unfold findRecord, storeRecord.
  rewrite (find_update_lookup (fun r => seq (obj_get r "id") (obj_get d "id"))).
  - eexists; split; [reflexivity|]. intros k Hk.
    apply in_map_iff in Hk as ([k0 v0] & <- & Hin). simpl.
    rewrite (obj_get_In_NoDup d k0 v0) by assumption.
    destruct (find_first _ _) as [x|]; [|now apply obj_get_In_NoDup].
    unfold obj_get. now rewrite (assoc_assign_in _ _ k0 v0).
  - intros x Hx. rewrite storeRecord_merged_id by assumption.
    now apply seq_refl_prim.
  - now apply seq_refl_prim.
Qed.

(** Witness: the server creates widget 3. *)
Lemma create_caches_record_witness :
  snd (create "widgets" (Ok (mkDoc (widget "3") None VNull VNull)) (shop_root [widget "1"]))
  = Ok tt /\
  exists st', module_state "widgets"
      (fst (create "widgets" (Ok (mkDoc (widget "3") None VNull VNull)) (shop_root [widget "1"])))
      = Some st' /\
    Getters.lastCreated st' = VObj (widget "3") /\
    exists rec, findRecord st'.(records) (obj_get (widget "3") "id") = Some rec /\
      forall k, In k (map fst (widget "3")) -> obj_get rec k = obj_get (widget "3") k.
Proof.
  apply (create_caches_record "widgets" (mkDoc (widget "3") None VNull VNull)
           (shop_root [widget "1"]) (set_records initialState [widget "1"])).
  - reflexivity.
  - repeat constructor; simpl; intuition discriminate.
  - reflexivity.
Defined.


(** When the transport call of a load-class action rejects with [e], the
    action rejects with [e] and only the status ([ERROR]) and the error of
    its own module change: records, indexes, page, links, [lastCreated] and
    [lastMeta] of every module stay as they were. *)
Theorem load_failure_only_flags (R : string) (e : Val) (params : Obj) (root : Root) :
  loadAll R (Throw e) root = (failed_load R e root, Throw e) /\
  loadById R (Throw e) root = (failed_load R e root, Throw e) /\
  loadWhere R params (Throw e) root = (failed_load R e root, Throw e) /\
  loadPage R (Throw e) root = (failed_load R e root, Throw e) /\
  loadRelated R params (Throw e) root = (failed_load R e root, Throw e).
Proof.
  unfold failed_load.
  repeat split; cbv [loadAll loadById loadWhere loadPage loadRelated catchM thenM
                     handleError commitHere commit bindM throwM retM];
    rewrite !update_module_compose; reflexivity.
Qed.

(** A resolved [loadPage] leaves the module in [SUCCESS] with the page
    holding the response's ids, in order, each resolving to a cached record
    with that id; [hasNext] and [hasPrevious] follow the response's links and
    [lastMeta] is the response's [meta]. *)
Theorem loadPage_fills_page (R : string) (doc : Doc (list Obj)) (root root' : Root)
    (st0 : State) :
  module_state R root = Some st0 ->
  Forall keys_unique doc.(data) -> Forall keys_unique (incl_list doc) ->
  Forall (fun id => is_prim id = true) (ids_of doc.(data)) ->
  loadPage R (Ok doc) root = (root', Ok tt) ->
  exists st, module_state R root' = Some st /\
    st.(status) = STATUS_SUCCESS /\ Getters.isLoading st = false /\
    st.(page) = ids_of doc.(data) /\
    Forall2 resolves_to (ids_of doc.(data)) (Getters.page st) /\
    Getters.hasNext st = truthy doc.(doc_links) && truthy (prop doc.(doc_links) "next") /\
    Getters.hasPrevious st = truthy doc.(doc_links) && truthy (prop doc.(doc_links) "prev") /\
    Getters.lastMeta st = doc.(meta).
Proof.
  intros Hst Hnd Hinc Hp H. rewrite loadPage_ok in H.
  apply catchM_handleError_ok in H.
  set (r1 := update_module R _ _) in H.
  destruct (storeIncluded_keeps R (many_doc doc) r1
    (SET_LINKS (STORE_META (STORE_PAGE (STORE_RECORDS (SET_STATUS (SET_STATUS st0
       STATUS_LOADING) STATUS_SUCCESS) doc.(data)) doc.(data)) doc.(meta)) doc.(doc_links)))
    as (st & Hst' & Ho & Hh).
  - unfold r1. now rewrite !module_state_update_same, Hst.
  - exact Hinc.
  - rewrite H in Hst'. simpl in Hst'. exists st. split; [exact Hst'|].
    unfold other_fields in Ho. simpl in Ho. injection Ho as Hf Hpg He Hs Hl Hc Hm.
    assert (Hids : holds_ids (ids_of doc.(data)) st).
    { intros id Hid. apply Hh. simpl. apply fold_storeRecord_ids; [exact Hnd|now right]. }
    unfold Getters.isLoading, Getters.page, Getters.hasNext, Getters.hasPrevious,
      Getters.lastMeta.
    rewrite Hs, Hpg, Hl, Hm, !truthy_prop_SET_LINKS. fold (ids_of doc.(data)).
    split; [reflexivity|]. split; [reflexivity|]. split; [reflexivity|].
    split; [now apply resolves_all|]. split; [reflexivity|]. split; reflexivity.
Qed.

(** Witness: a first page of two widgets with a link to the next page. *)
Lemma loadPage_fills_page_witness :
  exists st, module_state "widgets"
      (fst (loadPage "widgets" (Ok page_doc) (shop_root []))) = Some st /\
    st.(status) = STATUS_SUCCESS /\ Getters.isLoading st = false /\
    st.(page) = ids_of page_doc.(data) /\
    Forall2 resolves_to (ids_of page_doc.(data)) (Getters.page st) /\
    Getters.hasNext st = truthy page_doc.(doc_links) && truthy (prop page_doc.(doc_links) "next") /\
    Getters.hasPrevious st = truthy page_doc.(doc_links) && truthy (prop page_doc.(doc_links) "prev") /\
    Getters.lastMeta st = page_doc.(meta).
Proof.
  apply (loadPage_fills_page "widgets" page_doc (shop_root [])
           (fst (loadPage "widgets" (Ok page_doc) (shop_root [])))
           (set_records initialState [])).
  - reflexivity.
  - repeat constructor; simpl; intuition discriminate.
  - constructor.
  - repeat constructor.
  - vm_compute. reflexivity.
Defined.


(** When the transport call of [loadNextPage] ([loadPreviousPage]) rejects,
    the store is left exactly as it was (the status too: no [LOADING], no
    [ERROR]) and the action rejects with the same error. *)
Theorem paging_rejection_keeps_store (R : string) all (root : Root) (st : State) (e : Val) :
  module_state R root = Some st -> is_nullish st.(links) = false ->
  (all (prop st.(links) "next") = Throw e -> loadNextPage R all root = (root, Throw e)) /\
  (all (prop st.(links) "prev") = Throw e -> loadPreviousPage R all root = (root, Throw e)).
Proof.
  intros Hst Hn. split; intros Hall;
    unfold loadNextPage, loadPreviousPage, followLink, withState; rewrite Hst;
    unfold bindM at 1, liftRes, get; rewrite Hn; unfold retM, thenM; now rewrite Hall.
Qed.

(** Witness: the next and the previous page both fail with a network error. *)
Lemma paging_rejection_keeps_store_witness :
  loadNextPage "widgets" (fun _ => Throw (VStr "NetworkError")) paged_root
  = (paged_root, Throw (VStr "NetworkError")) /\
  loadPreviousPage "widgets" (fun _ => Throw (VStr "NetworkError")) paged_root
  = (paged_root, Throw (VStr "NetworkError")).
Proof.
  destruct (paging_rejection_keeps_store "widgets" (fun _ => Throw (VStr "NetworkError"))
              paged_root
              (set_links (set_records initialState [widget "9"])
                 (VObj [("next", VStr "/widgets?page=2"); ("prev", VStr "/widgets?page=0")]))
              (VStr "NetworkError")) as [H1 H2].
  - reflexivity.
  - reflexivity.
  - split; [apply H1|apply H2]; reflexivity.
Defined.


(** [loadNextPage] asks the transport for [state.links.next] and nothing else
    ([loadPreviousPage] for [state.links.prev]): two transports that answer
    that url alike give the same outcome. *)
Theorem paging_requests_link (R : string) all all' (root : Root) (st : State) :
  module_state R root = Some st ->
  (all (prop st.(links) "next") = all' (prop st.(links) "next") ->
   loadNextPage R all root = loadNextPage R all' root) /\
  (all (prop st.(links) "prev") = all' (prop st.(links) "prev") ->
   loadPreviousPage R all root = loadPreviousPage R all' root).
Proof.
  intros Hst. split; intros Hall;
    unfold loadNextPage, loadPreviousPage, followLink, withState; rewrite Hst;
    unfold bindM at 1 3, liftRes, get; destruct (is_nullish _); try reflexivity;
    unfold retM, thenM; now rewrite Hall.
Qed.

(** Witness: a transport that only serves page 2 and one that serves every
    url give the same [loadNextPage]. *)
Lemma paging_requests_link_witness :
  loadNextPage "widgets"
    (fun url => match url with
                | VStr "/widgets?page=2" => Ok page_doc
                | _ => Throw (VStr "NotFound")
                end) paged_root
  = loadNextPage "widgets" (fun _ => Ok page_doc) paged_root.
Proof.
  destruct (paging_requests_link "widgets"
              (fun url => match url with
                          | VStr "/widgets?page=2" => Ok page_doc
                          | _ => Throw (VStr "NotFound")
                          end)
              (fun _ => Ok page_doc) paged_root
              (set_links (set_records initialState [widget "9"])
                 (VObj [("next", VStr "/widgets?page=2"); ("prev", VStr "/widgets?page=0")])))
    as [H1 _].
  - reflexivity.
  - apply H1. reflexivity.
Defined.


(** A resolved [loadNextPage] or [loadPreviousPage] (the shared body
    [followLink]) puts the response's ids on the page, each resolving to a
    cached record with that id, takes the response's links and [meta], and
    leaves the status and the error as they were. *)
Theorem followLink_fills_page (R linkName : string) all (doc : Doc (list Obj))
    (root root' : Root) (st0 : State) :
  module_state R root = Some st0 -> all (prop st0.(links) linkName) = Ok doc ->
  Forall keys_unique doc.(data) -> Forall keys_unique (incl_list doc) ->
  Forall (fun id => is_prim id = true) (ids_of doc.(data)) ->
  followLink R linkName all root = (root', Ok tt) ->
  exists st, module_state R root' = Some st /\
    st.(status) = st0.(status) /\ st.(error) = st0.(error) /\
    st.(page) = ids_of doc.(data) /\
    Forall2 resolves_to (ids_of doc.(data)) (Getters.page st) /\
    Getters.hasNext st = truthy doc.(doc_links) && truthy (prop doc.(doc_links) "next") /\
    Getters.hasPrevious st = truthy doc.(doc_links) && truthy (prop doc.(doc_links) "prev") /\
    Getters.lastMeta st = doc.(meta).
Proof.
  intros Hst Hall Hnd Hinc Hp H. apply (followLink_ok R linkName all root root' st0 doc Hst Hall) in H.
  set (r1 := update_module R _ _) in H.
  destruct (storeIncluded_keeps R (many_doc doc) r1
    (STORE_META (SET_LINKS (STORE_PAGE (STORE_RECORDS st0 doc.(data)) doc.(data))
       doc.(doc_links)) doc.(meta)))
    as (st & Hst' & Ho & Hh).
  - unfold r1. now rewrite !module_state_update_same, Hst.
  - exact Hinc.
  - rewrite H in Hst'. simpl in Hst'. exists st. split; [exact Hst'|].
    unfold other_fields in Ho. simpl in Ho. injection Ho as Hf Hpg He Hs Hl Hc Hm.
    assert (Hids : holds_ids (ids_of doc.(data)) st).
    { intros id Hid. apply Hh. simpl. apply fold_storeRecord_ids; [exact Hnd|now right]. }
    unfold Getters.page, Getters.hasNext, Getters.hasPrevious, Getters.lastMeta.
    rewrite Hs, He, Hpg, Hl, Hm, !truthy_prop_SET_LINKS. fold (ids_of doc.(data)).
    split; [reflexivity|]. split; [reflexivity|]. split; [reflexivity|].
    split; [now apply resolves_all|]. split; [reflexivity|]. split; reflexivity.
Qed.

(** Witness: following the next link of a store that holds widget 9. *)
Lemma followLink_fills_page_witness :
  exists st, module_state "widgets"
      (fst (loadNextPage "widgets" (fun _ => Ok page_doc) paged_root)) = Some st /\
    st.(status) = STATUS_INITIAL /\ st.(error) = VNull /\
    st.(page) = ids_of page_doc.(data) /\
    Forall2 resolves_to (ids_of page_doc.(data)) (Getters.page st) /\
    Getters.hasNext st = truthy page_doc.(doc_links) && truthy (prop page_doc.(doc_links) "next") /\
    Getters.hasPrevious st = truthy page_doc.(doc_links) && truthy (prop page_doc.(doc_links) "prev") /\
    Getters.lastMeta st = page_doc.(meta).
Proof.
  apply (followLink_fills_page "widgets" "next" (fun _ => Ok page_doc) page_doc paged_root
           (fst (loadNextPage "widgets" (fun _ => Ok page_doc) paged_root))
           (set_links (set_records initialState [widget "9"])
              (VObj [("next", VStr "/widgets?page=2"); ("prev", VStr "/widgets?page=0")]))).
  - reflexivity.
  - reflexivity.
  - repeat constructor; simpl; intuition discriminate.
  - constructor.
  - repeat constructor.
  - vm_compute. reflexivity.
Defined.


(** A resolved [loadWhere(params)] is read back by [where(params)]: it
    returns, in response order, a cached record for each response record's
    id.  This needs [params] to match itself under [deepEquals] and to have
    no [matchedIds] key. *)
Theorem loadWhere_then_where (R : string) (params : Obj) (doc : Doc (list Obj))
    (root root' : Root) (st0 : State) :
  module_state R root = Some st0 ->
  keys_unique params -> ~ In "matchedIds" (map fst params) ->
  matches params params = true ->
  Forall keys_unique doc.(data) -> Forall keys_unique (incl_list doc) ->
  Forall (fun id => is_prim id = true) (ids_of doc.(data)) ->
  loadWhere R params (Ok doc) root = (root', Ok tt) ->
  exists st res, module_state R root' = Some st /\
    st.(status) = STATUS_SUCCESS /\
    Getters.where_ st params = Ok res /\
    Forall2 resolves_to (ids_of doc.(data)) res.
Proof.
  intros Hst Hpk Hmi Hself Hnd Hinc Hp H. rewrite loadWhere_ok in H.
  apply catchM_handleError_ok in H.
  set (r1 := update_module R _ _) in H.
  destruct (storeIncluded_keeps R (many_doc doc) r1
    (STORE_META (STORE_FILTERED (STORE_RECORDS (SET_STATUS (SET_STATUS st0
       STATUS_LOADING) STATUS_SUCCESS) doc.(data)) (VArr (ids_of doc.(data))) params)
       doc.(meta)))
    as (st & Hst' & Ho & Hh).
  - unfold r1. now rewrite !module_state_update_same, Hst.
  - exact Hinc.
  - rewrite H in Hst'. simpl in Hst'.
    unfold other_fields in Ho. simpl in Ho. injection Ho as Hf Hpg He Hs Hl Hc Hm.
    assert (Hids : holds_ids (ids_of doc.(data)) st).
    { intros id Hid. apply Hh. simpl. apply fold_storeRecord_ids; [exact Hnd|now right]. }
    exists st, (map (findRecord st.(records)) (ids_of doc.(data))).
    split; [exact Hst'|]. split; [exact Hs|]. split.
    + unfold Getters.where_. rewrite Hf.
      rewrite find_update_found.
      * destruct (find_first _ _); [rewrite obj_get_set_same|rewrite obj_get_assign_fresh];
          auto.
      * intros x. now apply matches_obj_set_other.
      * now rewrite matches_assign_self.
    + now apply resolves_all.
Qed.

(** Witness: the red widgets are loaded, then read back. *)
Lemma loadWhere_then_where_witness :
  exists st res, module_state "widgets"
      (fst (loadWhere "widgets" [("filter", VObj [("color", VStr "red")])]
              (Ok page_doc) (shop_root [widget "9"]))) = Some st /\
    st.(status) = STATUS_SUCCESS /\
    Getters.where_ st [("filter", VObj [("color", VStr "red")])] = Ok res /\
    Forall2 resolves_to (ids_of page_doc.(data)) res.
Proof.
  apply (loadWhere_then_where "widgets" [("filter", VObj [("color", VStr "red")])]
           page_doc (shop_root [widget "9"])
           (fst (loadWhere "widgets" [("filter", VObj [("color", VStr "red")])]
                   (Ok page_doc) (shop_root [widget "9"])))
           (set_records initialState [widget "9"])).
  - reflexivity.
  - repeat constructor; simpl; intuition discriminate.
  - simpl. intuition discriminate.
  - reflexivity.
  - repeat constructor; simpl; intuition discriminate.
  - constructor.
  - repeat constructor.
  - vm_compute. reflexivity.
Defined.


(** [storeIncluded] never loses a cached record: every id the Entity Store of
    any module held before is still held after, and besides Entity Stores and
    relationship indexes it changes nothing in any module. *)
Theorem storeIncluded_only_adds (n : string) (doc : Doc Data) (root : Root) (st : State) :
  module_state n root = Some st -> Forall keys_unique (incl_list doc) ->
  exists st', module_state n (fst (storeIncluded doc root)) = Some st' /\
    other_fields st' = other_fields st /\
    (forall id, In id (ids_of st.(records)) -> In id (ids_of st'.(records))).
Proof. intros Hst Hnd. exact (storeIncluded_keeps n doc root st Hst Hnd). Qed.

(** Witness: a dish whose included comment goes to the [comments] module. *)
Lemma storeIncluded_only_adds_witness :
  exists st', module_state "comments"
      (fst (storeIncluded
              (mkDoc (DOne (dish_with_comments [comment "5"]))
                 (Some [[("type", VStr "comments"); ("id", VStr "5")]]) VNull VNull)
              kitchen_root)) = Some st' /\
    other_fields st' = other_fields
      (STORE_RELATED "comments"
         (set_records initialState [[("type", VStr "comments"); ("id", VStr "5")]])
         (VArr [VStr "5"]) (rel_key (VObj (dish_with_comments [comment "5"])) "comments")) /\
    (forall id, In id [VStr "5"] -> In id (ids_of st'.(records))).
Proof.
  apply (storeIncluded_only_adds "comments"
           (mkDoc (DOne (dish_with_comments [comment "5"]))
              (Some [[("type", VStr "comments"); ("id", VStr "5")]]) VNull VNull)
           kitchen_root).
  - reflexivity.
  - repeat constructor; simpl; intuition discriminate.
Defined.


(** [addRelated] never changes the store; when the relationship is not
    cached as a list ([related] returns [null] or a single record) it throws
    a TypeError. *)
Theorem addRelated_keeps_store (R : string) (params : Obj) (root : Root) :
  fst (addRelated R params root) = root /\
  (forall st, module_state R root = Some st ->
     (forall rs, Getters.related R st params <> RMany rs) ->
     snd (addRelated R params root) = Throw type_error).
Proof.
  unfold addRelated, withState. split.
  - destruct (module_state R root) as [st|]; [|reflexivity].
    unfold bindM, liftRes.
    destruct (relatedItemIds _); [|reflexivity]. unfold retM.
    destruct (difference _ _); reflexivity.
  - intros st Hst Hn. rewrite Hst. unfold bindM, liftRes, relatedItemIds.
    destruct (Getters.related R st params); try reflexivity.
    exfalso. now apply (Hn rs).
Qed.

(** Witness: adding to a relationship that was never loaded throws. *)
Lemma addRelated_keeps_store_witness :
  fst (addRelated "widgets"
         [("parent", user42); ("relationship", VStr "purchased-widgets");
          ("data", VArr [VStr "1"])] (shop_root [widget "1"])) = shop_root [widget "1"] /\
  snd (addRelated "widgets"
         [("parent", user42); ("relationship", VStr "purchased-widgets");
          ("data", VArr [VStr "1"])] (shop_root [widget "1"])) = Throw type_error.
Proof.
  destruct (addRelated_keeps_store "widgets"
              [("parent", user42); ("relationship", VStr "purchased-widgets");
               ("data", VArr [VStr "1"])] (shop_root [widget "1"])) as [H1 H2].
  split; [exact H1|]. apply (H2 (set_records initialState [widget "1"])).
  - reflexivity.
  - intros rs H. vm_compute in H. discriminate H.
Defined.





(** [setRelated] with an array of resource objects is read back by
    [related(params)]: it returns the cached records with their ids, in
    order; the Entity Store itself is not touched.  This needs the index key
    to match itself under [deepEquals]. *)
Theorem setRelated_then_related (R : string) (params : Obj) (recs ids : list Val)
    (root : Root) (st : State) :
  module_state R root = Some st -> obj_get params "data" = VArr recs ->
  mapRes (fun r => get r "id") recs = Ok ids ->
  matches (getRelationshipIndex R params) (getRelationshipIndex R params) = true ->
  snd (setRelated R params root) = Ok tt /\
  exists st', module_state R (fst (setRelated R params root)) = Some st' /\
    st'.(records) = st.(records) /\
    Getters.related R st' params = RMany (somes (map (findRecord st.(records)) ids)).
Proof.
  intros Hst Hdata Hids Hself.
  unfold setRelated, bindM, liftRes, idsOfData. rewrite Hdata, Hids.
  unfold commitHere, commit. split; [reflexivity|]. simpl fst.
  rewrite module_state_update_same, Hst.
  eexists. split; [reflexivity|]. split; [reflexivity|].
  unfold Getters.related, STORE_RELATED. rewrite getRelationshipIndex_setRelated.
  cbn [set_related related records]. rewrite find_update_found.
  - destruct (find_first _ _);
      [rewrite obj_get_set_same|rewrite obj_get_assign_fresh by (simpl; intuition discriminate)];
      f_equal; apply flat_map_somes.
  - intros x. apply matches_obj_set_other. simpl. intuition discriminate.
  - rewrite matches_assign_self; [exact Hself| |simpl; intuition discriminate].
    unfold keys_unique. simpl. constructor; [simpl; intuition discriminate|].
    constructor; [simpl; tauto|constructor].
Qed.

(** Witness: user 42's purchased widgets are set to widgets 1 and 3, of
    which only widget 1 is cached. *)
Lemma setRelated_then_related_witness :
  snd (setRelated "widgets"
         [("parent", user42); ("relationship", VStr "purchased-widgets");
          ("data", VArr [VObj (widget "1"); VObj (widget "3")])]
         (shop_root [widget "1"; widget "2"])) = Ok tt /\
  exists st', module_state "widgets"
      (fst (setRelated "widgets"
              [("parent", user42); ("relationship", VStr "purchased-widgets");
               ("data", VArr [VObj (widget "1"); VObj (widget "3")])]
              (shop_root [widget "1"; widget "2"]))) = Some st' /\
    st'.(records) = [widget "1"; widget "2"] /\
    Getters.related "widgets" st'
      [("parent", user42); ("relationship", VStr "purchased-widgets");
       ("data", VArr [VObj (widget "1"); VObj (widget "3")])]
    = RMany (somes (map (findRecord [widget "1"; widget "2"]) [VStr "1"; VStr "3"])).
Proof.
  apply (setRelated_then_related "widgets"
           [("parent", user42); ("relationship", VStr "purchased-widgets");
            ("data", VArr [VObj (widget "1"); VObj (widget "3")])]
           [VObj (widget "1"); VObj (widget "3")] [VStr "1"; VStr "3"]
           (shop_root [widget "1"; widget "2"])
           (set_records initialState [widget "1"; widget "2"])).
  - reflexivity.
  - reflexivity.
  - reflexivity.
  - vm_compute. reflexivity.
Defined.

(** [removeRelated] never commits and always throws: a ReferenceError from
    the assignment to the undeclared [relatedIds] once the ids of [data] are
    computed.  [removeAllRelated] commits a mutation the module does not
    declare, so it changes nothing either: a cached relationship survives
    both. *)
Theorem remove_related_changes_nothing (R : string) (params : Obj) (root : Root) :
  fst (removeRelated params root) = root /\
  (exists e, snd (removeRelated params root) = Throw e) /\
  (forall ids, idsOfData (obj_get params "data") = Ok ids ->
     snd (removeRelated params root) = Throw reference_error) /\
  removeAllRelated R params root = (root, Ok tt).
Proof.
  unfold removeRelated, bindM, liftRes.
  split; [|split; [|split]].
  - destruct (idsOfData _); reflexivity.
  - destruct (idsOfData _); eexists; reflexivity.
  - intros ids ->. reflexivity.
  - reflexivity.
Qed.

(** [mapResourceModules(names)] registers one module under each of [names],
    each in its initial state, no key twice, and nothing else. *)
Theorem mapResourceModules_registers (names : list string) (n : string) :
  NoDup (map fst (mapResourceModules names)) /\
  (In n names -> module_state n (mapResourceModules names) = Some initialState) /\
  (~ In n names -> module_state n (mapResourceModules names) = None).
Proof.
  destruct (fold_mapResourceModules names [] (NoDup_nil _) (fun kv H => False_ind _ H))
    as (H1 & H2 & H3).
  unfold mapResourceModules. destruct (module_state_keys n _ H2) as [G1 G2].
  split; [exact H1|]. split.
  - intros Hin. apply G1. apply H3. now right.
  - intros Hin. apply G2. rewrite H3. simpl. tauto.
Qed.

(** A resolved [loadById] leaves the module in [SUCCESS] with a cached
    record whose id is the response record's id, and [lastMeta] is the
    response's [meta]. *)
Theorem loadById_caches_record (R : string) (doc : Doc Obj) (root root' : Root)
    (st0 : State) :
  module_state R root = Some st0 ->
  keys_unique doc.(data) -> Forall keys_unique (incl_list doc) ->
  is_prim (obj_get doc.(data) "id") = true ->
  loadById R (Ok doc) root = (root', Ok tt) ->
  exists st, module_state R root' = Some st /\
    st.(status) = STATUS_SUCCESS /\
    resolves_to (obj_get doc.(data) "id") (findRecord st.(records) (obj_get doc.(data) "id")) /\
    Getters.lastMeta st = doc.(meta).
Proof.
  intros Hst Hnd Hinc Hp H. rewrite loadById_ok in H.
  apply catchM_handleError_ok in H.
  set (r1 := update_module R _ _) in H.
  destruct (storeIncluded_keeps R (one_doc doc) r1
    (STORE_META (STORE_RECORD (SET_STATUS (SET_STATUS st0 STATUS_LOADING)
       STATUS_SUCCESS) doc.(data)) doc.(meta)))
    as (st & Hst' & Ho & Hh).
  - unfold r1. now rewrite !module_state_update_same, Hst.
  - exact Hinc.
  - rewrite H in Hst'. simpl in Hst'. exists st. split; [exact Hst'|].
    unfold other_fields in Ho. simpl in Ho. injection Ho as Hf Hpg He Hs Hl Hc Hm.
    split; [exact Hs|]. split; [|exact Hm].
    apply findRecord_resolves; [exact Hp|]. apply Hh. simpl.
    apply storeRecord_ids; [exact Hnd|]. now right.
Qed.

(** Witness: widget 3 is loaded by id into a store holding widget 1. *)
Lemma loadById_caches_record_witness :
  exists st, module_state "widgets"
      (fst (loadById "widgets" (Ok (mkDoc (widget "3") (Some []) VNull VNull))
              (shop_root [widget "1"]))) = Some st /\
    st.(status) = STATUS_SUCCESS /\
    resolves_to (obj_get (widget "3") "id") (findRecord st.(records) (obj_get (widget "3") "id")) /\
    Getters.lastMeta st = VNull.
Proof.
  apply (loadById_caches_record "widgets" (mkDoc (widget "3") (Some []) VNull VNull)
           (shop_root [widget "1"])
           (fst (loadById "widgets" (Ok (mkDoc (widget "3") (Some []) VNull VNull))
                   (shop_root [widget "1"])))
           (set_records initialState [widget "1"])).
  - reflexivity.
  - repeat constructor; simpl; intuition discriminate.
  - constructor.
  - reflexivity.
  - vm_compute. reflexivity.
Defined.


